(** * atman-persist: a shallow embedding of the soul codec, the Shamir key
      manager, the Merkle integrity tree and the resurrection protocol

    The Python sources are [soul_encoder.py], [soul_decoder.py],
    [shamir_keys.py], [integrity.py], [resurrection.py] and the in-memory
    store of [arweave_store.py].  Python integers are [Z], [bytes] objects
    are lists of [byte], [str] objects are [string]s (read as their UTF-8
    bytes), exceptions are values of a [result] type, and the libraries the
    package calls but does not contain ([json], [zlib], AES-GCM, [hashlib])
    are the fields of the class [Externals]. *)

From HB Require Import structures.
Set Warnings "-notation-overridden,-ambiguous-paths,-register-all,-rewrite-rw".
From mathcomp Require Import boot algebra binnums.
From Stdlib Require Import ZArith Lia String Ascii List Bool SpecFloat.
From Stdlib Require Import DecimalString.
From Stdlib.Strings Require Import Byte.
Set Warnings "notation-overridden,ambiguous-paths".
Import ListNotations.

Set Implicit Arguments.
Unset Strict Implicit.
Unset Printing Implicit Defensive.

Bind Scope list_scope with list.
Local Open Scope string_scope.
Local Open Scope list_scope.
Local Open Scope Z_scope.

(** ** Python values the package handles *)

Module Py.

Definition bytes := list byte.

(** [len(x)] as a Python integer. *)
Definition len {A : Type} (l : list A) : Z := Z.of_nat (length l).

(** A byte read as an integer ([for b in key], [data[5]]), and back
    ([bytearray.append], [bytes([n])]) for [0 <= n < 256]. *)
Definition int_of_byte (b : byte) : Z := Z.of_N (Byte.to_N b).

Definition byte_of_int (n : Z) : byte :=
  match Byte.of_N (Z.to_N n) with
  | Some b => b
  | None => x00
  end.

(** [s.encode()]: a string is kept as its UTF-8 bytes. *)
Definition encode_utf8 (s : string) : bytes := list_byte_of_string s.

(** Exception classes raised or caught by the package; every one of them is
    a subclass of [Exception]. *)
Inductive exn_class : Type :=
| SoulDecodeError
| ValueError
| KeyError
| TypeError
| AttributeError
| IndexError
| OverflowError
| RecursionError
| JSONDecodeError
| ZlibError
| OtherException (name : string).

(** An exception that is an instance of [Exception]: its class and
    [str(e)].  Exceptions outside [Exception] ([KeyboardInterrupt],
    [asyncio.CancelledError] delivered at an [await]) are not represented:
    no [except] clause of the package catches them, and they leave every
    function as they entered it. *)
Record exn : Type := Exn { exn_cls : exn_class; exn_str : string }.

Inductive result (A : Type) : Type :=
| Ok (a : A)
| Raise (e : exn).
Arguments Ok {A} a.
Arguments Raise {A} e.

Definition bind {A B : Type} (m : result A) (k : A -> result B) : result B :=
  match m with
  | Ok a => k a
  | Raise e => Raise e
  end.

Definition raises {A : Type} (m : result A) : Prop :=
  match m with
  | Ok _ => False
  | Raise _ => True
  end.

(** [try: m except cls as e: h e] *)
Definition is_class (c : exn_class) (e : exn) : bool :=
  match c, exn_cls e with
  | SoulDecodeError, SoulDecodeError => true
  | ValueError, ValueError => true
  | KeyError, KeyError => true
  | TypeError, TypeError => true
  | AttributeError, AttributeError => true
  | IndexError, IndexError => true
  | OverflowError, OverflowError => true
  | RecursionError, RecursionError => true
  | JSONDecodeError, JSONDecodeError => true
  | ZlibError, ZlibError => true
  | OtherException a, OtherException b => String.eqb a b
  | _, _ => false
  end.

Definition try_except {A : Type} (m : result A) (c : exn_class)
    (h : exn -> result A) : result A :=
  match m with
  | Ok a => Ok a
  | Raise e => if is_class c e then h e else Raise e
  end.

(** [try: m except Exception as e: h e] *)
Definition try_except_Exception {A : Type} (m : result A)
    (h : exn -> result A) : result A :=
  match m with
  | Ok a => Ok a
  | Raise e => h e
  end.

(** [l[i]] on a list, with Python's negative indices. *)
Definition getitem {A : Type} (l : list A) (i : Z) : result A :=
  let i' := if i <? 0 then i + len l else i in
  if (0 <=? i') && (i' <? len l) then
    match nth_error l (Z.to_nat i') with
    | Some a => Ok a
    | None => Raise (Exn IndexError "list index out of range")
    end
  else Raise (Exn IndexError "list index out of range").

(** [data[a:b]] for [0 <= a <= b]. *)
Definition slice {A : Type} (l : list A) (a b : Z) : list A :=
  firstn (Z.to_nat (b - a)) (skipn (Z.to_nat a) l).

(** [int.from_bytes(b, "big")] *)
Definition from_bytes_big (b : bytes) : Z :=
  fold_left (fun acc x => acc * 256 + int_of_byte x) b 0.

(** [n.to_bytes(length, "big")]; [OverflowError] when [n] is negative or
    does not fit. *)
Fixpoint to_bytes_digits (length : nat) (n : Z) : bytes :=
  match length with
  | O => []
  | S k => to_bytes_digits k (n / 256) ++ [byte_of_int (n mod 256)]
  end.

Definition to_bytes_big (n : Z) (length : nat) : result bytes :=
  if n <? 0 then
    Raise (Exn OverflowError "can't convert negative int to unsigned")
  else if n <? 256 ^ Z.of_nat length then Ok (to_bytes_digits length n)
  else Raise (Exn OverflowError "int too big to convert").

(** Values of Python's JSON data model: what [json.loads] returns and what
    a fragment value or a metadata entry holds.  A [dict] with string keys
    is a finite map; it is represented by the list of its items in
    increasing key order, so that two dicts are equal exactly when Python's
    [==] says so.  The order in which the items were inserted is not
    represented. *)
Inductive json : Type :=
| JNull
| JBool (b : bool)
| JInt (n : Z)
| JFloat (f : spec_float)
| JStr (s : string)
| JList (l : list json)
| JDict (items : list (string * json)).

(** [bool(v)] *)
Definition truthy (v : json) : bool :=
  match v with
  | JNull => false
  | JBool b => b
  | JInt n => negb (n =? 0)
  | JFloat (S754_zero _) => false
  | JFloat _ => true
  | JStr s => negb (String.eqb s "")
  | JList l => match l with [] => false | _ => true end
  | JDict d => match d with [] => false | _ => true end
  end.

Fixpoint lookup (k : string) (d : list (string * json)) : option json :=
  match d with
  | [] => None
  | (k', v) :: d' => if String.eqb k k' then Some v else lookup k d'
  end.

Fixpoint remove_key (k : string) (d : list (string * json))
    : list (string * json) :=
  match d with
  | [] => []
  | (k', v) :: d' =>
      if String.eqb k k' then remove_key k d' else (k', v) :: remove_key k d'
  end.

(** [d[k] = v] on a dict: the item replaces the one with the same key, or
    takes its place in the key order. *)
Fixpoint setitem (k : string) (v : json) (d : list (string * json))
    : list (string * json) :=
  match d with
  | [] => [(k, v)]
  | (k', v') :: d' =>
      if String.eqb k k' then (k, v) :: d'
      else if String.ltb k k' then (k, v) :: (k', v') :: d'
      else (k', v') :: setitem k v d'
  end.

(** The libraries the package imports.  Each field is documented with the
    call it stands for. *)
Class Externals : Type := {
  (** [json.dumps(v, sort_keys=True, separators=(",", ":")).encode("utf-8")] *)
  json_dumps : json -> bytes;
  (** [json.loads(raw)] *)
  json_loads : bytes -> result json;
  (** [zlib.compress(raw, level=9)] *)
  zlib_compress : bytes -> bytes;
  (** [zlib.decompress(compressed)] *)
  zlib_decompress : bytes -> result bytes;
  (** [AESGCM(key).encrypt(nonce, data, associated_data)] *)
  aesgcm_encrypt : bytes -> bytes -> bytes -> bytes -> bytes;
  (** [AESGCM(key).decrypt(nonce, data, associated_data)] *)
  aesgcm_decrypt : bytes -> bytes -> bytes -> bytes -> result bytes;
  (** [hashlib.sha256(data).hexdigest()] *)
  sha256_hexdigest : bytes -> string;
  (** [hashlib.sha512(data).digest()] *)
  sha512_digest : bytes -> bytes;
  (** zlib is lossless *)
  zlib_inverse : forall raw, zlib_decompress (zlib_compress raw) = Ok raw;
  (** AES-GCM decrypts what it encrypted under the same key, nonce and
      associated data *)
  aesgcm_inverse : forall key nonce data ad,
    aesgcm_decrypt key nonce (aesgcm_encrypt key nonce data ad) ad = Ok data;
  (** a SHA-512 digest has 64 bytes *)
  sha512_length : forall data, length (sha512_digest data) = 64%nat
}.

End Py.
Export Py.

Declare Scope py_scope.
Notation "x <- m ;; k" := (bind m (fun x => k))
  (at level 61, m at next level, right associativity) : py_scope.
Local Open Scope py_scope.

(** ** soul_encoder.py: the identity record *)

Module SoulModel.

(** [SoulFragment]: a dataclass; Python checks no field type, so every
    field holds an arbitrary value. *)
Record SoulFragment : Type := {
  domain : json;
  key : json;
  value : json;
  weight : json;
  timestamp : json;
  provenance : json
}.

(** [Soul]: [fragments] is a list of [SoulFragment]; the other fields are
    unchecked values ([metadata] is meant to be a dict). *)
Record Soul : Type := {
  agent_id : json;
  version : json;
  fragments : list SoulFragment;
  created_at : json;
  model_origin : json;
  metadata : json
}.

(** [dataclasses.asdict] on a fragment and on a soul: one item per field,
    listed in key order. *)
Definition asdict_fragment (f : SoulFragment) : json :=
  JDict [("domain", domain f); ("key", key f);
         ("provenance", provenance f); ("timestamp", timestamp f);
         ("value", value f); ("weight", weight f)].

Definition asdict (soul : Soul) : json :=
  JDict [("agent_id", agent_id soul); ("created_at", created_at soul);
         ("fragments", JList (map asdict_fragment (fragments soul)));
         ("metadata", metadata soul);
         ("model_origin", model_origin soul);
         ("version", version soul)].

(** [1.0], the default weight, as a binary64 value. *)
Definition float_one : spec_float := S754_finite false 4503599627370496 (-52).

End SoulModel.
Export SoulModel.

(** ** Values that [json.dumps] accepts and [json.loads] does not return *)

Module PyValue.

(** What a fragment's [value: Any] may hold when the record is
    JSON-serializable: the values of the JSON data model, and tuples. *)
Inductive pyvalue : Type :=
| PNone
| PBool (b : bool)
| PInt (n : Z)
| PFloat (f : spec_float)
| PStr (s : string)
| PList (l : list pyvalue)
| PTuple (l : list pyvalue)
| PDict (items : list (string * pyvalue)).

(** The value [json.dumps] writes for [v]: [dataclasses.asdict] keeps a
    tuple a tuple, and [json.dumps] writes a tuple as it writes the list of
    its items. *)
Fixpoint to_json (v : pyvalue) : json :=
  match v with
  | PNone => JNull
  | PBool b => JBool b
  | PInt n => JInt n
  | PFloat f => JFloat f
  | PStr s => JStr s
  | PList l => JList (map to_json l)
  | PTuple l => JList (map to_json l)
  | PDict items => JDict (map (fun kv => (fst kv, to_json (snd kv))) items)
  end.

(** A value that [json.loads] returned, among the Python values: an array
    is a list, never a tuple. *)
Fixpoint of_json (v : json) : pyvalue :=
  match v with
  | JNull => PNone
  | JBool b => PBool b
  | JInt n => PInt n
  | JFloat f => PFloat f
  | JStr s => PStr s
  | JList l => PList (map of_json l)
  | JDict items => PDict (map (fun kv => (fst kv, of_json (snd kv))) items)
  end.

(** Whether a NaN occurs in [v].  Python's [==] is false between two NaN,
    so a value with a NaN is not equal to what [json.loads] reads back
    from its text. *)
Fixpoint has_nan (v : json) : bool :=
  match v with
  | JFloat S754_nan => true
  | JList l => existsb has_nan l
  | JDict items => existsb (fun kv => has_nan (snd kv)) items
  | _ => false
  end.

(** A fragment and a record as the caller builds them, with any
    serializable [value]. *)
Record PyFragment : Type := {
  domain : json;
  key : json;
  value : pyvalue;
  weight : json;
  timestamp : json;
  provenance : json
}.

Record PySoul : Type := {
  agent_id : json;
  version : json;
  fragments : list PyFragment;
  created_at : json;
  model_origin : json;
  metadata : json
}.

(** The record whose canonical JSON is that of [R]: [encode] and
    [compute_root] see [R] only through [json.dumps] of [asdict], so they
    return for [R] what they return for [written R]. *)
Definition written_fragment (f : PyFragment) : SoulFragment :=
  {| SoulModel.domain := domain f; SoulModel.key := key f;
     SoulModel.value := to_json (value f); SoulModel.weight := weight f;
     SoulModel.timestamp := timestamp f;
     SoulModel.provenance := provenance f |}.

Definition written (R : PySoul) : Soul :=
  {| SoulModel.agent_id := agent_id R; SoulModel.version := version R;
     SoulModel.fragments := map written_fragment (fragments R);
     SoulModel.created_at := created_at R;
     SoulModel.model_origin := model_origin R;
     SoulModel.metadata := metadata R |}.

(** A decoded record among the records a caller can build. *)
Definition read_fragment (f : SoulFragment) : PyFragment :=
  {| domain := SoulModel.domain f; key := SoulModel.key f;
     value := of_json (SoulModel.value f); weight := SoulModel.weight f;
     timestamp := SoulModel.timestamp f;
     provenance := SoulModel.provenance f |}.

Definition read (s : Soul) : PySoul :=
  {| agent_id := SoulModel.agent_id s; version := SoulModel.version s;
     fragments := map read_fragment (SoulModel.fragments s);
     created_at := SoulModel.created_at s;
     model_origin := SoulModel.model_origin s;
     metadata := SoulModel.metadata s |}.

End PyValue.

(** ** integrity.py: MerkleIntegrity *)

Module Integrity.

Record MerkleProof : Type := {
  leaf_index : Z;
  leaf_hash : string;
  siblings : list (string * string);
  root : string
}.

(** The [soul] argument of [compute_root] and [prove_fragment] is either a
    [Soul] or a raw list of fragment dicts. *)
Inductive soul_arg : Type :=
| OfSoul (soul : Soul)
| OfLeaves (leaves : list json).

Definition leaves_of (arg : soul_arg) : list json :=
  match arg with
  | OfSoul soul => map asdict_fragment (fragments soul)
  | OfLeaves leaves => leaves
  end.

Section WithExternals.
Context {L : Externals}.

Definition _hash (data : bytes) : string := sha256_hexdigest data.

Definition _leaf_hash (fragment : json) : string :=
  _hash (encode_utf8 "leaf:" ++ json_dumps fragment).

Definition _node_hash (left right : string) : string :=
  _hash (encode_utf8 ("node:" ++ left ++ ":" ++ right)%string).

(** [if len(hashes) % 2 == 1: hashes.append(hashes[-1])] *)
Definition pad (hashes : list string) : list string :=
  if len hashes mod 2 =? 1 then hashes ++ [last hashes ""%string] else hashes.

(** [for i in range(0, len(level), 2):
       next_level.append(_node_hash(level[i], level[i + 1]))]
    on a level of even length, which is what [pad] leaves. *)
Fixpoint pair_up (level : list string) : list string :=
  match level with
  | l :: r :: rest => _node_hash l r :: pair_up rest
  | _ => []
  end.

(** [_build_tree]: one unit of fuel per call; on the empty list Python
    recurses until [RecursionError]. *)
Fixpoint _build_tree_rec (fuel : nat) (hashes : list string) : result string :=
  match fuel with
  | O => Raise (Exn RecursionError "maximum recursion depth exceeded")
  | S fuel' =>
      if len hashes =? 1 then getitem hashes 0
      else _build_tree_rec fuel' (pair_up (pad hashes))
  end.

Definition _build_tree (hashes : list string) : result string :=
  _build_tree_rec (S (length hashes)) hashes.

Definition compute_root (soul : soul_arg) : result string :=
  let leaves := leaves_of soul in
  match leaves with
  | [] => Ok (_hash (encode_utf8 "empty-soul"))
  | _ => _build_tree (map _leaf_hash leaves)
  end.

(** The [while len(level) > 1] loop of [_collect_siblings]; one unit of fuel
    per iteration. *)
Fixpoint _collect_siblings_loop (fuel : nat) (level : list string) (index : Z)
    (siblings : list (string * string)) : result (list (string * string)) :=
  match fuel with
  | O => Ok siblings
  | S fuel' =>
      if len level >? 1 then
        let level := pad level in
        let sibling_idx := Z.lxor index 1 in
        siblings' <-
          (if sibling_idx <? len level then
             let side := if index mod 2 =? 0 then "right" else "left" in
             h <- getitem level sibling_idx ;;
             Ok (siblings ++ [(h, side%string)])
           else Ok siblings) ;;
        _collect_siblings_loop fuel' (pair_up level) (index / 2) siblings'
      else Ok siblings
  end.

Definition _collect_siblings (hashes : list string) (index : Z)
    : result (list (string * string)) :=
  _collect_siblings_loop (length hashes) hashes index [].

Definition prove_fragment (soul : soul_arg) (fragment_index : Z)
    : result MerkleProof :=
  let leaves := leaves_of soul in
  let hashes := pad (map _leaf_hash leaves) in
  leaf <- getitem leaves fragment_index ;;
  let leaf_hash := _leaf_hash leaf in
  siblings <- _collect_siblings hashes fragment_index ;;
  root <- _build_tree hashes ;;
  Ok {| leaf_index := fragment_index; leaf_hash := leaf_hash;
        siblings := siblings; root := root |}.

Definition verify_proof (proof : MerkleProof) : bool :=
  let current :=
    fold_left
      (fun current '(sibling_hash, side) =>
         if String.eqb side "right" then _node_hash current sibling_hash
         else _node_hash sibling_hash current)
      (siblings proof) (leaf_hash proof) in
  String.eqb current (root proof).

End WithExternals.
End Integrity.

(** ** soul_encoder.py: SoulEncoder *)

Module Encoder.

Definition MAGIC : bytes := encode_utf8 "ATMAN".
Definition FORMAT_VERSION : Z := 1.

Record SoulEncoder : Type := { _key : bytes }.

(** [SoulEncoder(encryption_key)] with an explicit key. *)
Definition init (encryption_key : bytes) : result SoulEncoder :=
  if negb (len encryption_key =? 32) then
    Raise (Exn ValueError "Encryption key must be exactly 32 bytes (AES-256)")
  else Ok {| _key := encryption_key |}.

Section WithExternals.
Context {L : Externals}.

(** [encode]; [nonce] is what [os.urandom(12)] returns in this call. *)
Definition encode (self : SoulEncoder) (nonce : bytes) (soul : Soul)
    : result bytes :=
  let raw := json_dumps (asdict soul) in
  let original_size := len raw in
  let compressed := zlib_compress raw in
  let ciphertext := aesgcm_encrypt (_key self) nonce compressed MAGIC in
  let header := MAGIC ++ [byte_of_int FORMAT_VERSION] in
  size_bytes <- to_bytes_big original_size 4 ;;
  Ok (header ++ nonce ++ size_bytes ++ ciphertext).

End WithExternals.
End Encoder.

(** ** soul_decoder.py: SoulDecoder *)

Module Decoder.

(** [str(n)] for an integer. *)
Definition str_int (n : Z) : string := NilZero.string_of_int (Z.to_int n).

Definition backslash : ascii := ascii_of_nat 92.
Definition squote : ascii := ascii_of_nat 39.
Definition dquote : ascii := ascii_of_nat 34.

Definition hex_digit (n : Z) : ascii :=
  match String.get (Z.to_nat n) "0123456789abcdef" with
  | Some c => c
  | None => "0"%char
  end.

(** [repr(b)] for a bytes object, as in [f"{magic!r}"]. *)
Definition repr_byte (quote : ascii) (b : byte) : string :=
  let c := ascii_of_byte b in
  let n := int_of_byte b in
  if Ascii.eqb c quote || Ascii.eqb c backslash then
    String backslash (String c "")
  else if n =? 9 then String backslash "t"
  else if n =? 10 then String backslash "n"
  else if n =? 13 then String backslash "r"
  else if (n <? 32) || (127 <=? n) then
    String backslash
      (String "x" (String (hex_digit (n / 16)) (String (hex_digit (n mod 16)) "")))
  else String c "".

Definition repr_bytes (b : bytes) : string :=
  let has c := existsb (fun x => Ascii.eqb (ascii_of_byte x) c) b in
  let quote := if has squote && negb (has dquote) then dquote else squote in
  (String "b" (String quote "") ++
   String.concat "" (map (repr_byte quote) b) ++ String quote "")%string.

Fixpoint bytes_eqb (a b : bytes) : bool :=
  match a, b with
  | [], [] => true
  | x :: a', y :: b' => Byte.eqb x y && bytes_eqb a' b'
  | _, _ => false
  end.

(** The names of the fields of [SoulFragment]. *)
Definition fragment_fields : list string :=
  ["domain"; "key"; "value"; "weight"; "timestamp"; "provenance"].

Definition type_name (v : json) : string :=
  match v with
  | JNull => "NoneType"
  | JBool _ => "bool"
  | JInt _ => "int"
  | JFloat _ => "float"
  | JStr _ => "str"
  | JList _ => "list"
  | JDict _ => "dict"
  end.

(** [SoulFragment] called with the keyword arguments [frag]: [frag] must be
    a mapping whose keys are field names and which binds the three fields
    without a default; [now] is what [time.time()] returns if the timestamp
    is defaulted. *)
Definition SoulFragment_kwargs (now : spec_float) (frag : json)
    : result SoulFragment :=
  match frag with
  | JDict kw =>
      match find (fun k => negb (existsb (String.eqb k) fragment_fields))
                 (map fst kw) with
      | Some k =>
          Raise (Exn TypeError
            ("SoulFragment.__init__() got an unexpected keyword argument '"
             ++ k ++ "'")%string)
      | None =>
          match lookup "domain" kw, lookup "key" kw, lookup "value" kw with
          | Some d, Some k, Some v =>
              Ok {| domain := d; key := k; value := v;
                    weight :=
                      match lookup "weight" kw with
                      | Some w => w
                      | None => JFloat float_one
                      end;
                    timestamp :=
                      match lookup "timestamp" kw with
                      | Some t => t
                      | None => JFloat now
                      end;
                    provenance :=
                      match lookup "provenance" kw with
                      | Some p => p
                      | None => JStr ""
                      end |}
          | _, _, _ =>
              Raise (Exn TypeError
                "SoulFragment.__init__() missing required positional arguments")
          end
      end
  | _ =>
      Raise (Exn TypeError
        ("SoulFragment() argument after ** must be a mapping, not "
         ++ type_name frag)%string)
  end.

(** [for frag in v]: the elements of a list, the keys of a dict, the
    characters of a string. *)
Definition iterate (v : json) : result (list json) :=
  match v with
  | JList l => Ok l
  | JDict d => Ok (map (fun kv => JStr (fst kv)) d)
  | JStr s => Ok (map (fun c => JStr (String c "")) (list_ascii_of_string s))
  | _ =>
      Raise (Exn TypeError
        ("'" ++ type_name v ++ "' object is not iterable")%string)
  end.

(** [obj.pop("fragments", [])] *)
Definition pop_fragments (obj : json) : result (json * list (string * json)) :=
  match obj with
  | JDict d =>
      Ok (match lookup "fragments" d with
          | Some v => v
          | None => JList []
          end, remove_key "fragments" d)
  | JList _ =>
      Raise (Exn TypeError "pop expected at most 1 argument, got 2")
  | _ =>
      Raise (Exn AttributeError
        ("'" ++ type_name obj ++ "' object has no attribute 'pop'")%string)
  end.

(** The list comprehension building one [SoulFragment] per element of
    [frags]; [now n] is the clock reading for the fragment at position [n]. *)
Fixpoint build_fragments (now : nat -> spec_float) (n : nat)
    (frags : list json) : result (list SoulFragment) :=
  match frags with
  | [] => Ok []
  | frag :: rest =>
      f <- SoulFragment_kwargs (now n) frag ;;
      fs <- build_fragments now (S n) rest ;;
      Ok (f :: fs)
  end.

Definition get_default (k : string) (d : list (string * json)) (default : json)
    : json :=
  match lookup k d with
  | Some v => v
  | None => default
  end.

Definition _reconstruct (now : nat -> spec_float) (obj : json) : result Soul :=
  popped <- pop_fragments obj ;;
  let '(frags, obj) := popped in
  frags <- iterate frags ;;
  fragments <- build_fragments now 0 frags ;;
  agent_id <-
    match lookup "agent_id" obj with
    | Some v => Ok v
    | None => Raise (Exn KeyError "'agent_id'")
    end ;;
  Ok {| agent_id := agent_id;
        version := get_default "version" obj (JInt 1);
        fragments := fragments;
        created_at := get_default "created_at" obj (JInt 0);
        model_origin := get_default "model_origin" obj (JStr "");
        metadata := get_default "metadata" obj (JDict []) |}.

Record SoulDecoder : Type := { _key : bytes }.

(** [SoulDecoder(decryption_key)] *)
Definition init (decryption_key : bytes) : result SoulDecoder :=
  if negb (len decryption_key =? 32) then
    Raise (Exn ValueError "Decryption key must be exactly 32 bytes")
  else Ok {| _key := decryption_key |}.

Section WithExternals.
Context {L : Externals}.

Definition decode (self : SoulDecoder) (now : nat -> spec_float)
    (data : bytes) : result Soul :=
  if len data <? 22 then Raise (Exn SoulDecodeError "Payload too short")
  else
    let magic := slice data 0 5 in
    if negb (bytes_eqb magic Encoder.MAGIC) then
      Raise (Exn SoulDecodeError
               ("Invalid magic bytes: " ++ repr_bytes magic)%string)
    else
      version <- getitem (map int_of_byte data) 5 ;;
      if negb (version =? Encoder.FORMAT_VERSION) then
        Raise (Exn SoulDecodeError
                 ("Unsupported format version: " ++ str_int version)%string)
      else
        let nonce := slice data 6 18 in
        let original_size := from_bytes_big (slice data 18 22) in
        let ciphertext := skipn 22 data in
        compressed <-
          try_except_Exception
            (aesgcm_decrypt (_key self) nonce ciphertext Encoder.MAGIC)
            (fun e =>
               Raise (Exn SoulDecodeError
                 ("Decryption failed (wrong key or corrupted data): "
                  ++ exn_str e)%string)) ;;
        raw <-
          try_except (zlib_decompress compressed) ZlibError
            (fun e =>
               Raise (Exn SoulDecodeError
                 ("Decompression failed: " ++ exn_str e)%string)) ;;
        if negb (len raw =? original_size) then
          Raise (Exn SoulDecodeError
                   ("Size mismatch: expected " ++ str_int original_size
                    ++ ", got " ++ str_int (len raw))%string)
        else
          obj <-
            try_except (json_loads raw) JSONDecodeError
              (fun e =>
                 Raise (Exn SoulDecodeError
                   ("JSON parse failed: " ++ exn_str e)%string)) ;;
          _reconstruct now obj.

End WithExternals.
End Decoder.

(** ** shamir_keys.py: ShamirKeyManager *)

Module Shamir.

Record KeyShare : Type := {
  index : Z;
  data : bytes;
  fingerprint : string
}.

Record ShamirKeyManager : Type := { _prime : Z }.

(** [ShamirKeyManager()] *)
Definition default_manager : ShamirKeyManager := {| _prime := 257 |}.

(** [range(n)] and [enumerate(l)] *)
Definition range (n : Z) : list Z := map Z.of_nat (seq 0 (Z.to_nat n)).

Definition enumerate {A : Type} (l : list A) : list (Z * A) :=
  combine (range (len l)) l.

Fixpoint mapM {A B : Type} (f : A -> result B) (l : list A)
    : result (list B) :=
  match l with
  | [] => Ok []
  | a :: l' => b <- f a ;; bs <- mapM f l' ;; Ok (b :: bs)
  end.

(** [_eval_poly]: the polynomial is evaluated in the integers. *)
Definition _eval_poly (coeffs : list Z) (x : Z) : Z :=
  fold_left (fun result '(i, c) => result + c * x ^ i) (enumerate coeffs) 0.

(** [pow(base, e, m)] for [e >= 0] and [m > 0] *)
Definition pow_mod (base e m : Z) : Z := base ^ e mod m.

(** [_lagrange_interpolate] *)
Definition _lagrange_interpolate (self : ShamirKeyManager) (x : Z)
    (xs ys : list Z) : result Z :=
  let p := _prime self in
  let k := len xs in
  fold_left
    (fun acc i =>
       result <- acc ;;
       yi <- getitem ys i ;;
       nd <-
         fold_left
           (fun acc' j =>
              nd <- acc' ;;
              let '(num, den) := nd in
              if negb (i =? j) then
                xj <- getitem xs j ;;
                xi <- getitem xs i ;;
                Ok (num * (x - xj) mod p, den * (xi - xj) mod p)
              else Ok (num, den))
           (range k) (Ok (yi, 1)) ;;
       let '(num, den) := nd in
       Ok ((result + num * pow_mod den (p - 2) p) mod p))
    (range k) (Ok 0).

Section WithExternals.
Context {L : Externals}.

(** [rng_seed[k % len(rng_seed)]]; a SHA-512 digest has 64 bytes, so the
    index is in range. *)
Definition seed_at (rng_seed : bytes) (k : Z) : Z :=
  int_of_byte (nth (Z.to_nat (k mod len rng_seed)) rng_seed x00).

(** The coefficients of the polynomial for the key byte at [byte_idx]:
    the byte itself, then [threshold - 1] values read from [rng_seed]. *)
Definition coeffs_of (self : ShamirKeyManager) (rng_seed : bytes)
    (threshold byte_idx byte_val : Z) : list Z :=
  byte_val ::
  map (fun c =>
         let offset := (byte_idx * (threshold - 1) + c) * 2 in
         (seed_at rng_seed offset * 256 + seed_at rng_seed (offset + 1))
           mod _prime self)
      (range (threshold - 1)).

(** [split] with an explicit key.  The passes of the source that fill
    [shares_data], [shares] and [all_shares] compute values that are never
    read again; the result is [full_shares], built by the last pass. *)
Definition split (self : ShamirKeyManager) (key : bytes)
    (threshold num_shares : Z) : result (bytes * list KeyShare) :=
  if negb (len key =? 32) then Raise (Exn ValueError "Key must be 32 bytes")
  else if threshold >? num_shares then
    Raise (Exn ValueError "Threshold cannot exceed number of shares")
  else if threshold <? 2 then
    Raise (Exn ValueError "Threshold must be at least 2")
  else
    let fingerprint := substring 0 16 (sha256_hexdigest key) in
    let rng_seed := sha512_digest (key ++ encode_utf8 "shamir-coefficients") in
    full_shares <-
      mapM
        (fun i =>
           vals <-
             mapM
               (fun '(byte_idx, byte_val) =>
                  let coeffs :=
                    coeffs_of self rng_seed threshold byte_idx
                      (int_of_byte byte_val) in
                  let y := _eval_poly coeffs (i + 1) mod _prime self in
                  to_bytes_big y 2)
               (enumerate key) ;;
           Ok {| index := i + 1; data := concat vals;
                 fingerprint := fingerprint |})
        (range num_shares) ;;
    Ok (key, full_shares).

(** [combine] *)
Definition combine (self : ShamirKeyManager) (shares : list KeyShare)
    (key_length : Z) : result bytes :=
  if len shares <? 2 then Raise (Exn ValueError "Need at least 2 shares")
  else
    let fps := nodup string_dec (map fingerprint shares) in
    if len fps >? 1 then Raise (Exn ValueError "Shares are from different keys")
    else
      let xs := map index shares in
      key_bytes <-
        mapM
          (fun byte_idx =>
             let ys :=
               map (fun s =>
                      let offset := byte_idx * 2 in
                      from_bytes_big (slice (data s) offset (offset + 2)))
                   shares in
             secret <- _lagrange_interpolate self 0 xs ys ;;
             Ok (byte_of_int (secret mod 256)))
          (range key_length) ;;
      let result := key_bytes in
      let fp := substring 0 16 (sha256_hexdigest result) in
      s0 <- getitem shares 0 ;;
      if negb (String.eqb fp (fingerprint s0)) then
        Raise (Exn ValueError "Reconstruction failed — fingerprint mismatch")
      else Ok result.

End WithExternals.
End Shamir.

(** ** arweave_store.py: the store interface and LocalArweaveStore *)

Module Store.

Record StorageReceipt : Type := {
  tx_id : string;
  block_height : option Z;
  timestamp : spec_float;
  size_bytes : Z;
  cost_winston : Z;
  gateway_url : string;
  sha256 : string
}.

(** What the protocol asks of its store: [upload] and [download], over the
    store's own state. *)
Record ArweaveStore (S : Type) : Type := {
  upload : S -> bytes -> list (string * json) -> spec_float ->
           result (S * StorageReceipt);
  download : S -> string -> result bytes
}.

(** The [_store] dict of [LocalArweaveStore]. *)
Definition local_state : Type := list (string * bytes).

Fixpoint local_get (k : string) (d : local_state) : option bytes :=
  match d with
  | [] => None
  | (k', v) :: d' => if String.eqb k k' then Some v else local_get k d'
  end.

Fixpoint local_set (k : string) (v : bytes) (d : local_state) : local_state :=
  match d with
  | [] => [(k, v)]
  | (k', v') :: d' =>
      if String.eqb k k' then (k, v) :: d' else (k', v') :: local_set k v d'
  end.

Section WithExternals.
Context {L : Externals}.

(** [LocalArweaveStore.upload]; [now] is the receipt's default timestamp. *)
Definition local_upload (self : local_state) (data : bytes)
    (tags : list (string * json)) (now : spec_float)
    : result (local_state * StorageReceipt) :=
  let sha := sha256_hexdigest data in
  let tx_id := ("local-" ++ substring 0 32 sha)%string in
  Ok (local_set tx_id data self,
      {| tx_id := tx_id; block_height := None; timestamp := now;
         size_bytes := len data; cost_winston := 0; gateway_url := "";
         sha256 := sha |}).

(** [LocalArweaveStore.download]; [str] of a [KeyError] quotes its message. *)
Definition local_download (self : local_state) (tx_id : string)
    : result bytes :=
  match local_get tx_id self with
  | None =>
      Raise (Exn KeyError
        ("'Transaction " ++ tx_id ++ " not found in local store'")%string)
  | Some data => Ok data
  end.

Definition LocalArweaveStore : ArweaveStore local_state :=
  {| upload := local_upload; download := local_download |}.

End WithExternals.
End Store.

(** ** resurrection.py: ResurrectionProtocol *)

Module Resurrection.

Record ResurrectionResult : Type := {
  success : bool;
  soul : option Soul;
  source_tx : string;
  integrity_verified : bool;
  elapsed_ms : spec_float;
  error : string;
  metadata : list (string * json)
}.

Record ResurrectionProtocol : Type := {
  _key : bytes;
  _verify : bool;
  _decoder : Decoder.SoulDecoder
}.

(** binary64 arithmetic *)
Definition float_sub : spec_float -> spec_float -> spec_float :=
  SFsub 53 1024.
Definition float_mul : spec_float -> spec_float -> spec_float :=
  SFmul 53 1024.
Definition float_1000 : spec_float := S754_finite false 8796093022208000 (-43).

(** [(time.monotonic() - start) * 1000] *)
Definition elapsed_since (start monotonic : spec_float) : spec_float :=
  float_mul (float_sub monotonic start) float_1000.

(** A [try] with the two clauses [except SoulDecodeError] and
    [except Exception], in that order.  An [exn] is an instance of
    [Exception], so the second clause handles what the first does not. *)
Definition try_except_2 {A : Type} (m : result A)
    (on_decode_error on_exception : exn -> result A) : result A :=
  match m with
  | Ok a => Ok a
  | Raise e =>
      if is_class SoulDecodeError e then on_decode_error e
      else on_exception e
  end.

(** [soul.metadata.get("merkle_root")] and [soul.metadata["merkle_root"]] *)
Definition metadata_get (metadata : json) (k : string) : result json :=
  match metadata with
  | JDict d =>
      Ok (match lookup k d with Some v => v | None => JNull end)
  | _ =>
      Raise (Exn AttributeError
        ("'" ++ Decoder.type_name metadata
         ++ "' object has no attribute 'get'")%string)
  end.

Definition metadata_getitem (metadata : json) (k : string) : result json :=
  match metadata with
  | JDict d =>
      match lookup k d with
      | Some v => Ok v
      | None => Raise (Exn KeyError ("'" ++ k ++ "'")%string)
      end
  | _ => Raise (Exn TypeError "indices must be integers or slices, not str")
  end.

(** [soul.metadata["merkle_root"] = merkle_root] *)
Definition metadata_setitem (metadata : json) (k : string) (v : json)
    : result json :=
  match metadata with
  | JDict d => Ok (JDict (setitem k v d))
  | JList _ =>
      Raise (Exn TypeError "list indices must be integers or slices, not str")
  | _ =>
      Raise (Exn TypeError
        ("'" ++ Decoder.type_name metadata
         ++ "' object does not support item assignment")%string)
  end.

(** [computed_root == stored_root] for a string and a stored value *)
Definition str_eq_value (s : string) (v : json) : bool :=
  match v with
  | JStr s' => String.eqb s s'
  | _ => false
  end.

Section WithExternals.
Context {L : Externals}.

(** [ResurrectionProtocol(encryption_key, shares, store, verify_integrity)];
    the store is passed to each call below. *)
Definition init (encryption_key : option bytes)
    (shares : option (list Shamir.KeyShare)) (verify_integrity : bool)
    : result ResurrectionProtocol :=
  encryption_key <-
    match encryption_key, shares with
    | None, Some (s :: rest) =>
        key <- Shamir.combine Shamir.default_manager (s :: rest) 32 ;;
        Ok (Some key)
    | _, _ => Ok encryption_key
    end ;;
  match encryption_key with
  | None =>
      Raise (Exn ValueError
        "Must provide either encryption_key or sufficient Shamir shares")
  | Some key =>
      decoder <- Decoder.init key ;;
      Ok {| _key := key; _verify := verify_integrity; _decoder := decoder |}
  end.

(** [resurrect]; [start] and [finish] are the two readings of
    [time.monotonic()], [now] the clock of the decoder. *)
Definition resurrect {S : Type} (store : Store.ArweaveStore S)
    (self : ResurrectionProtocol) (st : S) (tx_id : string)
    (start finish : spec_float) (now : nat -> spec_float)
    : result ResurrectionResult :=
  try_except_2
    (encrypted_data <- Store.download store st tx_id ;;
     soul <- Decoder.decode (_decoder self) now encrypted_data ;;
     integrity_ok <-
       (if _verify self then
          stored <- metadata_get (SoulModel.metadata soul) "merkle_root" ;;
          if truthy stored then
            computed_root <- Integrity.compute_root (Integrity.OfSoul soul) ;;
            stored_root <-
              metadata_getitem (SoulModel.metadata soul) "merkle_root" ;;
            Ok (str_eq_value computed_root stored_root)
          else Ok true
        else Ok true) ;;
     let elapsed := elapsed_since start finish in
     Ok {| success := true;
           soul := Some soul;
           source_tx := tx_id;
           integrity_verified := integrity_ok;
           elapsed_ms := elapsed;
           error := "";
           metadata :=
             [("fragment_count", JInt (len (fragments soul)));
              ("model_origin", model_origin soul);
              ("soul_version", version soul)] |})
    (fun e =>
       let elapsed := elapsed_since start finish in
       Ok {| success := false; soul := None; source_tx := tx_id;
             integrity_verified := false; elapsed_ms := elapsed;
             error := ("Decode failed: " ++ exn_str e)%string;
             metadata := [] |})
    (fun e =>
       let elapsed := elapsed_since start finish in
       Ok {| success := false; soul := None; source_tx := tx_id;
             integrity_verified := false; elapsed_ms := elapsed;
             error := exn_str e;
             metadata := [] |}).

(** [full_ceremony]; [nonce] is the encoder's [os.urandom(12)] and
    [upload_time] the receipt's timestamp.  The soul is returned as well,
    since its [metadata] dict is updated in place. *)
Definition full_ceremony {S : Type} (store : Store.ArweaveStore S)
    (self : ResurrectionProtocol) (st : S) (soul : Soul)
    (tags : option (list (string * json)))
    (nonce : bytes) (upload_time start finish : spec_float)
    (now : nat -> spec_float)
    : result (S * Soul * Store.StorageReceipt * ResurrectionResult) :=
  encoder <- Encoder.init (_key self) ;;
  merkle_root <- Integrity.compute_root (Integrity.OfSoul soul) ;;
  metadata' <-
    metadata_setitem (SoulModel.metadata soul) "merkle_root"
      (JStr merkle_root) ;;
  let soul :=
    {| agent_id := agent_id soul; version := version soul;
       fragments := fragments soul; created_at := created_at soul;
       model_origin := model_origin soul;
       SoulModel.metadata := metadata' |} in
  encrypted <- Encoder.encode encoder nonce soul ;;
  let all_tags :=
    fold_left (fun d kv => setitem (fst kv) (snd kv) d)
      (match tags with Some t => t | None => [] end)
      [("Agent-Id", agent_id soul)] in
  uploaded <- Store.upload store st encrypted all_tags upload_time ;;
  let '(st', receipt) := uploaded in
  result <- resurrect store self st' (Store.tx_id receipt) start finish now ;;
  Ok (st', soul, receipt, result).

End WithExternals.
End Resurrection.

(** * Properties *)

(** ** Lists, indices and byte strings *)

Module PyFacts.

Lemma len_nonneg {A : Type} (l : list A) : 0 <= len l.
Proof. unfold len. lia. Qed.

Lemma len_app {A : Type} (l1 l2 : list A) : len (l1 ++ l2) = len l1 + len l2.
Proof. unfold len. rewrite length_app. lia. Qed.

Lemma len_map {A B : Type} (f : A -> B) (l : list A) : len (map f l) = len l.
Proof. unfold len. now rewrite length_map. Qed.

Lemma getitem_nth {A : Type} (l : list A) (i : Z) (a : A) :
  0 <= i -> nth_error l (Z.to_nat i) = Some a -> getitem l i = Ok a.
Proof.
  intros Hi Hn. unfold getitem.
  assert (Hlt : (Z.to_nat i < length l)%coq_nat)
    by (apply nth_error_Some; congruence).
  destruct (Z.ltb_spec i 0); [lia|].
  destruct (Z.leb_spec 0 i); [|lia].
  destruct (Z.ltb_spec i (len l)); [|unfold len in *; lia].
  simpl. now rewrite Hn.
Qed.

Lemma nth_error_in_range {A : Type} (l : list A) (i : Z) :
  0 <= i < len l -> exists a, nth_error l (Z.to_nat i) = Some a.
Proof.
  intros Hi. destruct (nth_error l (Z.to_nat i)) eqn:E; [now exists a|].
  apply nth_error_None in E. unfold len in Hi. lia.
Qed.

Lemma int_of_byte_range (b : byte) : 0 <= int_of_byte b < 256.
Proof.
  unfold int_of_byte. assert (H := Byte.to_N_bounded b). lia.
Qed.

Lemma byte_of_int_of_byte (b : byte) : byte_of_int (int_of_byte b) = b.
Proof.
  unfold byte_of_int, int_of_byte. now rewrite N2Z.id Byte.of_to_N.
Qed.

Lemma int_of_byte_of_int (n : Z) :
  0 <= n < 256 -> int_of_byte (byte_of_int n) = n.
Proof.
  intros Hn. unfold byte_of_int, int_of_byte.
  destruct (Byte.of_N (Z.to_N n)) as [b|] eqn:E.
  - apply Byte.to_of_N in E. lia.
  - apply Byte.of_N_None_iff in E. lia.
Qed.

Lemma length_to_bytes_digits (k : nat) (n : Z) :
  length (to_bytes_digits k n) = k.
Proof.
  revert n. induction k as [|k IH]; intros n; [reflexivity|].
  simpl. rewrite length_app IH. simpl. lia.
Qed.

Lemma from_bytes_big_app (a b : bytes) :
  from_bytes_big (a ++ b) =
  fold_left (fun acc x => acc * 256 + int_of_byte x) b (from_bytes_big a).
Proof. unfold from_bytes_big. now rewrite fold_left_app. Qed.

Lemma from_bytes_to_bytes_digits (k : nat) (n : Z) :
  0 <= n < 256 ^ Z.of_nat k -> from_bytes_big (to_bytes_digits k n) = n.
Proof.
  revert n. induction k as [|k IH]; intros n Hn.
  - simpl in Hn. unfold from_bytes_big. simpl. lia.
  - cbn [to_bytes_digits]. rewrite from_bytes_big_app. cbn [fold_left].
    assert (Hp : 256 ^ Z.of_nat (S k) = 256 * 256 ^ Z.of_nat k)
      by (rewrite Nat2Z.inj_succ; apply Z.pow_succ_r; lia).
    rewrite -> Hp in Hn.
    rewrite -> IH by (Z.div_mod_to_equations; nia).
    rewrite -> int_of_byte_of_int by (Z.div_mod_to_equations; lia).
    Z.div_mod_to_equations; lia.
Qed.

Lemma to_bytes_big_ok (n : Z) (k : nat) :
  0 <= n < 256 ^ Z.of_nat k -> to_bytes_big n k = Ok (to_bytes_digits k n).
Proof.
  intros Hn. unfold to_bytes_big.
  destruct (Z.ltb_spec n 0); [lia|].
  destruct (Z.ltb_spec n (256 ^ Z.of_nat k)); [reflexivity|lia].
Qed.

Lemma lxor_1_even (i : Z) : i mod 2 = 0 -> Z.lxor i 1 = i + 1.
Proof.
  intros Hev. symmetry. apply Z.add_nocarry_lxor.
  change 1 with (Z.ones 1). rewrite -> Z.land_ones by lia.
  now change (2 ^ 1) with 2.
Qed.

Lemma lxor_1_odd (i : Z) : i mod 2 = 1 -> Z.lxor i 1 = i - 1.
Proof.
  intros Hodd.
  assert (Hev : (i - 1) mod 2 = 0) by (Z.div_mod_to_equations; lia).
  assert (Hi : i = Z.lxor (i - 1) 1) by (rewrite (lxor_1_even Hev); lia).
  rewrite -> Hi at 1.
  now rewrite Z.lxor_assoc Z.lxor_nilpotent Z.lxor_0_r.
Qed.

Lemma bytes_eqb_refl (b : bytes) : Decoder.bytes_eqb b b = true.
Proof.
  induction b as [|x b IH]; [reflexivity|].
  simpl. now rewrite (Byte.byte_dec_lb (erefl x)) IH.
Qed.

Lemma bytes_eqb_eq (a b : bytes) : Decoder.bytes_eqb a b = true -> a = b.
Proof.
  revert b. induction a as [|x a IH]; intros [|y b] H; try discriminate.
  - reflexivity.
  - simpl in H. apply andb_prop in H. destruct H as [Hx Hab].
    apply Byte.byte_dec_bl in Hx. subst y. f_equal. now apply IH.
Qed.

End PyFacts.

(** ** A small executable instance of the libraries

    A prefix code for JSON values, a stored-mode compressor, a shift cipher
    with a 16-byte tag and two checksums stand in for [json], [zlib],
    AES-GCM and [hashlib], so that the model can be run on concrete
    inputs. *)

Module Sample.
Import PyFacts.

Fixpoint dump_pos (p : positive) : bytes :=
  match p with
  | xH => [x00]
  | xO q => x01 :: dump_pos q
  | xI q => x02 :: dump_pos q
  end.

Definition dump_int (z : Z) : bytes :=
  match z with
  | Z0 => [x00]
  | Zpos p => x01 :: dump_pos p
  | Zneg p => x02 :: dump_pos p
  end.

Definition dump_bool (b : bool) : byte := if b then x01 else x00.

Fixpoint dump_str (s : string) : bytes :=
  match s with
  | EmptyString => [x00]
  | String c r => x01 :: byte_of_ascii c :: dump_str r
  end.

Definition dump_float (f : spec_float) : bytes :=
  match f with
  | S754_zero s => [x00; dump_bool s]
  | S754_infinity s => [x01; dump_bool s]
  | S754_nan => [x02]
  | S754_finite s m e => x03 :: dump_bool s :: dump_pos m ++ dump_int e
  end.

Fixpoint dump_json (v : json) : bytes :=
  match v with
  | JNull => [x00]
  | JBool b => [x01; dump_bool b]
  | JInt n => x02 :: dump_int n
  | JFloat f => x03 :: dump_float f
  | JStr s => x04 :: dump_str s
  | JList l =>
      x05 ::
      (fix items (l : list json) : bytes :=
         match l with
         | [] => [x00]
         | v :: r => x01 :: dump_json v ++ items r
         end) l
  | JDict d =>
      x06 ::
      (fix items (d : list (string * json)) : bytes :=
         match d with
         | [] => [x00]
         | (k, v) :: r => x01 :: dump_str k ++ dump_json v ++ items r
         end) d
  end.

Definition omap {A B : Type} (f : A -> B) (o : option (A * bytes))
    : option (B * bytes) :=
  match o with
  | Some (a, r) => Some (f a, r)
  | None => None
  end.

Fixpoint parse_pos (bs : bytes) : option (positive * bytes) :=
  match bs with
  | [] => None
  | t :: r =>
      match int_of_byte t with
      | 0 => Some (xH, r)
      | 1 => omap xO (parse_pos r)
      | 2 => omap xI (parse_pos r)
      | _ => None
      end
  end.

Definition parse_int (bs : bytes) : option (Z * bytes) :=
  match bs with
  | [] => None
  | t :: r =>
      match int_of_byte t with
      | 0 => Some (0, r)
      | 1 => omap Zpos (parse_pos r)
      | 2 => omap Zneg (parse_pos r)
      | _ => None
      end
  end.

Definition parse_bool (bs : bytes) : option (bool * bytes) :=
  match bs with
  | [] => None
  | t :: r => Some (negb (int_of_byte t =? 0), r)
  end.

Fixpoint parse_str (bs : bytes) : option (string * bytes) :=
  match bs with
  | [] => None
  | t :: r =>
      match int_of_byte t, r with
      | 0, _ => Some (EmptyString, r)
      | 1, c :: r' => omap (String (ascii_of_byte c)) (parse_str r')
      | _, _ => None
      end
  end.

Definition parse_float (bs : bytes) : option (spec_float * bytes) :=
  match bs with
  | [] => None
  | t :: r =>
      match int_of_byte t with
      | 0 => omap S754_zero (parse_bool r)
      | 1 => omap S754_infinity (parse_bool r)
      | 2 => Some (S754_nan, r)
      | 3 =>
          match parse_bool r with
          | Some (s, r1) =>
              match parse_pos r1 with
              | Some (m, r2) => omap (S754_finite s m) (parse_int r2)
              | None => None
              end
          | None => None
          end
      | _ => None
      end
  end.

Fixpoint parse_json (fuel : nat) (bs : bytes) : option (json * bytes) :=
  match fuel, bs with
  | S f, t :: r =>
      match int_of_byte t with
      | 0 => Some (JNull, r)
      | 1 => omap JBool (parse_bool r)
      | 2 => omap JInt (parse_int r)
      | 3 => omap JFloat (parse_float r)
      | 4 => omap JStr (parse_str r)
      | 5 => omap JList (parse_items f r)
      | 6 => omap JDict (parse_pairs f r)
      | _ => None
      end
  | _, _ => None
  end
with parse_items (fuel : nat) (bs : bytes) : option (list json * bytes) :=
  match fuel, bs with
  | S f, t :: r =>
      match int_of_byte t with
      | 0 => Some ([], r)
      | 1 =>
          match parse_json f r with
          | Some (v, r1) => omap (cons v) (parse_items f r1)
          | None => None
          end
      | _ => None
      end
  | _, _ => None
  end
with parse_pairs (fuel : nat) (bs : bytes)
    : option (list (string * json) * bytes) :=
  match fuel, bs with
  | S f, t :: r =>
      match int_of_byte t with
      | 0 => Some ([], r)
      | 1 =>
          match parse_str r with
          | Some (k, r1) =>
              match parse_json f r1 with
              | Some (v, r2) => omap (cons (k, v)) (parse_pairs f r2)
              | None => None
              end
          | None => None
          end
      | _ => None
      end
  | _, _ => None
  end.

Definition loads (raw : bytes) : result json :=
  match parse_json (S (length raw)) raw with
  | Some (v, []) => Ok v
  | _ => Raise (Exn JSONDecodeError "Expecting value")
  end.

Definition checksum (modulus : Z) (bs : bytes) : Z :=
  fold_left (fun acc b => (acc * 257 + int_of_byte b + 1) mod modulus) bs 0.

Definition shift_of (key nonce : bytes) : Z :=
  checksum 256 (key ++ nonce).

Definition tag_of (key nonce data ad : bytes) : bytes :=
  to_bytes_digits 16 (checksum (2 ^ 128) (key ++ nonce ++ ad ++ data)).

Definition shift_byte (k : Z) (b : byte) : byte :=
  byte_of_int ((int_of_byte b + k) mod 256).

Definition encrypt (key nonce data ad : bytes) : bytes :=
  map (shift_byte (shift_of key nonce)) data ++ tag_of key nonce data ad.

Definition decrypt (key nonce ct ad : bytes) : result bytes :=
  if len ct <? 16 then Raise (Exn (OtherException "InvalidTag") "")
  else
    let n := (length ct - 16)%coq_nat in
    let data := map (shift_byte (- shift_of key nonce)) (firstn n ct) in
    if Decoder.bytes_eqb (skipn n ct) (tag_of key nonce data ad) then Ok data
    else Raise (Exn (OtherException "InvalidTag") "").

Definition hex_of_bytes (bs : bytes) : string :=
  String.concat ""
    (map (fun b =>
            String (Decoder.hex_digit (int_of_byte b / 16))
              (String (Decoder.hex_digit (int_of_byte b mod 16)) ""))
         bs).

Definition sha256 (data : bytes) : string :=
  hex_of_bytes (to_bytes_digits 32 (checksum (2 ^ 256) data)).

Definition sha512 (data : bytes) : bytes :=
  to_bytes_digits 64 (checksum (2 ^ 512) data).

Lemma shift_byte_inverse (k : Z) (b : byte) :
  shift_byte (- k) (shift_byte k b) = b.
Proof.
  unfold shift_byte. assert (Hb := int_of_byte_range b).
  rewrite -> int_of_byte_of_int by (Z.div_mod_to_equations; lia).
  rewrite <- (byte_of_int_of_byte b) at 2. f_equal.
  rewrite Zplus_mod_idemp_l.
  replace (int_of_byte b + k + - k) with (int_of_byte b) by lia.
  apply Z.mod_small. lia.
Qed.

Lemma decrypt_encrypt (key nonce data ad : bytes) :
  decrypt key nonce (encrypt key nonce data ad) ad = Ok data.
Proof.
  unfold decrypt, encrypt.
  set (body := map (shift_byte (shift_of key nonce)) data).
  assert (Hlen : length (body ++ tag_of key nonce data ad)
                 = (length body + 16)%coq_nat)
    by (rewrite length_app; unfold tag_of;
        now rewrite length_to_bytes_digits).
  unfold len. rewrite Hlen.
  destruct (Z.ltb_spec (Z.of_nat (length body + 16)%coq_nat) 16); [lia|].
  replace ((length body + 16)%coq_nat - 16)%coq_nat with (length body) by lia.
  rewrite -> firstn_app, skipn_app.
  rewrite Nat.sub_diag firstn_all skipn_all. simpl firstn. simpl skipn.
  rewrite app_nil_r. cbn [app].
  assert (Hdata : map (shift_byte (- shift_of key nonce)) body = data).
  { subst body. rewrite map_map. rewrite <- (map_id data) at 2.
    apply map_ext. intros b. apply shift_byte_inverse. }
  rewrite Hdata. now rewrite bytes_eqb_refl.
Qed.

#[export] Instance externals : Externals := {|
  json_dumps := dump_json;
  json_loads := loads;
  zlib_compress := fun raw => raw;
  zlib_decompress := fun compressed => Ok compressed;
  aesgcm_encrypt := encrypt;
  aesgcm_decrypt := decrypt;
  sha256_hexdigest := sha256;
  sha512_digest := sha512;
  zlib_inverse := fun raw => erefl;
  aesgcm_inverse := decrypt_encrypt;
  sha512_length := fun data => length_to_bytes_digits 64 _
|}.

(** A key, a nonce, a clock and a soul with three fragments. *)

Definition sample_key : bytes :=
  map (fun n => byte_of_int (Z.of_nat n)) (seq 1 32).

Definition sample_nonce : bytes :=
  map (fun n => byte_of_int (Z.of_nat n)) (seq 101 12).

Definition sample_fragment (d k v : string) : SoulFragment :=
  {| domain := JStr d; key := JStr k; value := JStr v;
     weight := JFloat float_one;
     timestamp := JFloat (S754_finite false 7476679213056000 (-22));
     provenance := JStr "" |}.

Definition sample_soul : Soul :=
  {| agent_id := JStr "mohini-v1";
     version := JInt 1;
     fragments :=
       [sample_fragment "personality" "tone" "warm, witty";
        sample_fragment "values" "loyalty" "fierce";
        sample_fragment "memories" "first_interaction" "The day"];
     created_at := JFloat (S754_finite false 7476679213056000 (-22));
     model_origin := JStr "anthropic/claude-3";
     metadata := JDict [("note", JList [JInt 1; JBool true; JNull])] |}.

Definition sample_clock (n : nat) : spec_float := S754_zero false.

End Sample.

(** ** integrity.py: proofs verify, and the root they carry *)

Module IntegrityFacts.
Import Integrity PyFacts.

Section WithExternals.
Context {L : Externals}.

(** Folding a proof path, as [verify_proof] does. *)
Definition fold_path (sibs : list (string * string)) (h : string) : string :=
  fold_left
    (fun current '(sibling_hash, side) =>
       if String.eqb side "right" then _node_hash current sibling_hash
       else _node_hash sibling_hash current)
    sibs h.

Lemma len_pad (hashes : list string) :
  len (pad hashes) = len hashes + len hashes mod 2.
Proof.
  unfold pad. destruct (Z.eqb_spec (len hashes mod 2) 1) as [E|E].
  - rewrite len_app. unfold len at 2. simpl. lia.
  - assert (len hashes mod 2 = 0) by (Z.div_mod_to_equations; lia). lia.
Qed.

Lemma pad_even (hashes : list string) : len (pad hashes) mod 2 = 0.
Proof. rewrite len_pad. Z.div_mod_to_equations; lia. Qed.

Lemma pad_idem (hashes : list string) : pad (pad hashes) = pad hashes.
Proof.
  unfold pad at 1. rewrite pad_even. reflexivity.
Qed.

Lemma nth_error_pad (hashes : list string) (n : nat) (h : string) :
  nth_error hashes n = Some h -> nth_error (pad hashes) n = Some h.
Proof.
  intros Hn. unfold pad. destruct (len hashes mod 2 =? 1); [|assumption].
  rewrite -> nth_error_app1 by (apply nth_error_Some; congruence).
  assumption.
Qed.

Lemma last_nth_error (hashes : list string) (n : nat) (h d : string) :
  length hashes = S n -> nth_error hashes n = Some h -> last hashes d = h.
Proof.
  revert n. induction hashes as [|a l IH]; intros n Hlen Hn; [discriminate|].
  destruct l as [|b l'].
  - destruct n; [simpl in *; congruence|discriminate].
  - destruct n as [|n]; [discriminate|].
    change (last (a :: b :: l') d) with (last (b :: l') d).
    apply (IH n); [simpl in *; lia|exact Hn].
Qed.

(** The slot [pad] adds repeats the last hash. *)
Lemma nth_error_pad_last (hashes : list string) (n : nat) (h : string) :
  len hashes mod 2 = 1 ->
  length hashes = S n ->
  nth_error hashes n = Some h ->
  nth_error (pad hashes) (S n) = Some h.
Proof.
  intros Hodd Hlen Hn. unfold pad. rewrite Hodd. rewrite <- Hlen.
  change (1 =? 1) with true. cbv iota.
  rewrite -> nth_error_app2 by apply Nat.le_refl.
  rewrite Nat.sub_diag. simpl. f_equal.
  now apply (last_nth_error (n := n)).
Qed.

Lemma len_pair_up (level : list string) :
  len level mod 2 = 0 -> len (pair_up level) = len level / 2.
Proof.
  remember (length level) as n eqn:Hn.
  revert level Hn. induction n as [n IH] using lt_wf_ind. intros level Hn Hev.
  destruct level as [|a [|b rest]].
  - reflexivity.
  - unfold len in Hev. simpl in Hev. discriminate.
  - simpl pair_up. unfold len in *. simpl length in *.
    assert (Hr : Z.of_nat (length rest) mod 2 = 0)
      by (Z.div_mod_to_equations; lia).
    specialize (IH (length rest) ltac:(lia) rest erefl Hr).
    Z.div_mod_to_equations; lia.
Qed.

Lemma nth_error_pair_up (level : list string) (k : nat) (a b : string) :
  nth_error level (k + k)%coq_nat = Some a ->
  nth_error level (S (k + k)%coq_nat) = Some b ->
  nth_error (pair_up level) k = Some (_node_hash a b).
Proof.
  revert level. induction k as [|k IH]; intros level Ha Hb.
  - destruct level as [|x [|y rest]]; simpl in *; try discriminate.
    congruence.
  - assert (E : (S k + S k)%coq_nat = S (S (k + k)%coq_nat)) by lia.
    rewrite -> E in Ha, Hb.
    destruct level as [|x [|y rest]]; simpl in Ha, Hb; try discriminate.
    now apply IH.
Qed.

(** One level of the walk: the sibling recorded for [index] and the parent
    node at [index / 2]. *)
Lemma level_step (level : list string) (index : Z) (h : string) :
  1 < len level ->
  0 <= index ->
  nth_error level (Z.to_nat index) = Some h ->
  exists s,
    (Z.lxor index 1 <? len (pad level)) = true /\
    getitem (pad level) (Z.lxor index 1) = Ok s /\
    nth_error (pair_up (pad level)) (Z.to_nat (index / 2)) =
      Some (if index mod 2 =? 0 then _node_hash h s else _node_hash s h).
Proof.
  intros Hlen Hidx Hh.
  assert (Hlt : (Z.to_nat index < length level)%coq_nat)
    by (apply nth_error_Some; congruence).
  assert (Hpad := len_pad level). assert (Hev := pad_even level).
  assert (Hh' := nth_error_pad Hh).
  destruct (Z.eqb_spec (index mod 2) 0) as [Heven|Hodd].
  - rewrite (lxor_1_even Heven).
    assert (Hs : exists s, nth_error (pad level) (Z.to_nat (index + 1)) = Some s).
    { apply nth_error_in_range. unfold len in *.
      Z.div_mod_to_equations; lia. }
    destruct Hs as [s Hs]. exists s. split; [|split].
    + apply Z.ltb_lt. unfold len in *. Z.div_mod_to_equations; lia.
    + apply getitem_nth; [lia|exact Hs].
    + apply nth_error_pair_up.
      * replace (Z.to_nat (index / 2) + Z.to_nat (index / 2))%coq_nat
          with (Z.to_nat index) by (Z.div_mod_to_equations; lia).
        exact Hh'.
      * replace (S (Z.to_nat (index / 2) + Z.to_nat (index / 2))%coq_nat)
          with (Z.to_nat (index + 1)) by (Z.div_mod_to_equations; lia).
        exact Hs.
  - assert (Hodd' : index mod 2 = 1) by (Z.div_mod_to_equations; lia).
    rewrite (lxor_1_odd Hodd').
    assert (Hs : exists s, nth_error (pad level) (Z.to_nat (index - 1)) = Some s).
    { apply nth_error_in_range. unfold len in *.
      Z.div_mod_to_equations; lia. }
    destruct Hs as [s Hs]. exists s. split; [|split].
    + apply Z.ltb_lt. unfold len in *. Z.div_mod_to_equations; lia.
    + apply getitem_nth; [Z.div_mod_to_equations; lia|exact Hs].
    + apply nth_error_pair_up.
      * replace (Z.to_nat (index / 2) + Z.to_nat (index / 2))%coq_nat
          with (Z.to_nat (index - 1)) by (Z.div_mod_to_equations; lia).
        exact Hs.
      * replace (S (Z.to_nat (index / 2) + Z.to_nat (index / 2))%coq_nat)
          with (Z.to_nat index) by (Z.div_mod_to_equations; lia).
        exact Hh'.
Qed.

(** The siblings collected from a level fold the tracked hash into the root
    that [_build_tree] computes from the same level. *)
Lemma collect_then_build (fuel : nat) :
  forall (level : list string) (index : Z) (acc : list (string * string))
         (h : string),
    (length level <= fuel)%coq_nat ->
    0 <= index ->
    nth_error level (Z.to_nat index) = Some h ->
    exists sibs,
      _collect_siblings_loop fuel level index acc = Ok (acc ++ sibs) /\
      _build_tree_rec (S fuel) level = Ok (fold_path sibs h).
Proof.
  induction fuel as [|fuel IH]; intros level index acc h Hfuel Hidx Hh.
  - destruct level; [|simpl in Hfuel; lia].
    destruct (Z.to_nat index); discriminate.
  - assert (Hlt : (Z.to_nat index < length level)%coq_nat)
      by (apply nth_error_Some; congruence).
    cbn [_collect_siblings_loop].
    change (_build_tree_rec (S (S fuel)) level)
      with (if len level =? 1 then getitem level 0
            else _build_tree_rec (S fuel) (pair_up (pad level))).
    destruct (Z.gtb_spec (len level) 1) as [Hgt|Hle].
    + destruct (Z.eqb_spec (len level) 1) as [E|_]; [lia|].
      destruct (level_step Hgt Hidx Hh) as (s & Hin & Hget & Hnext).
      rewrite Hin Hget. cbn [bind].
      set (side := if index mod 2 =? 0 then "right" else "left").
      set (h' := if index mod 2 =? 0 then _node_hash h s else _node_hash s h)
        in Hnext.
      destruct (IH (pair_up (pad level)) (index / 2) (acc ++ [(s, side)]) h')
        as (sibs & Hloop & Hbuild).
      * assert (Hl := len_pair_up (pad_even level)).
        assert (Hp := len_pad level). unfold len in *.
        Z.div_mod_to_equations; lia.
      * Z.div_mod_to_equations; lia.
      * exact Hnext.
      * exists ((s, side) :: sibs). split.
        -- rewrite Hloop. now rewrite <- app_assoc.
        -- rewrite Hbuild. f_equal. unfold fold_path. cbn [fold_left].
           subst side h'. now destruct (index mod 2 =? 0).
    + assert (Hone : len level = 1) by (unfold len in *; lia).
      rewrite Hone. change (1 =? 1) with true. cbv iota.
      assert (index = 0) by (unfold len in *; lia). subst index.
      exists []. split; [now rewrite app_nil_r|].
      now apply getitem_nth.
Qed.

Lemma build_tree_rec_more_fuel (fuel : nat) :
  forall (hashes : list string) (r : string),
    _build_tree_rec fuel hashes = Ok r ->
    _build_tree_rec (S fuel) hashes = Ok r.
Proof.
  induction fuel as [|fuel IH]; intros hashes r H; [discriminate|].
  change (_build_tree_rec (S (S fuel)) hashes)
    with (if len hashes =? 1 then getitem hashes 0
          else _build_tree_rec (S fuel) (pair_up (pad hashes))).
  cbn [_build_tree_rec] in H.
  destruct (len hashes =? 1); [exact H|now apply IH].
Qed.

(** From two hashes on, padding first does not change the root. *)
Lemma build_tree_pad (hashes : list string) :
  1 < len hashes -> _build_tree (pad hashes) = _build_tree hashes.
Proof.
  intros Hlen. unfold _build_tree.
  assert (Hp := len_pad hashes).
  change (_build_tree_rec (S (length hashes)) hashes)
    with (if len hashes =? 1 then getitem hashes 0
          else _build_tree_rec (length hashes) (pair_up (pad hashes))).
  change (_build_tree_rec (S (length (pad hashes))) (pad hashes))
    with (if len (pad hashes) =? 1 then getitem (pad hashes) 0
          else _build_tree_rec (length (pad hashes))
                 (pair_up (pad (pad hashes)))).
  rewrite pad_idem.
  destruct (Z.eqb_spec (len hashes) 1) as [E|_]; [lia|].
  destruct (Z.eqb_spec (len (pad hashes)) 1) as [E|_];
    [Z.div_mod_to_equations; lia|].
  unfold pad at 1. destruct (Z.eqb_spec (len hashes mod 2) 1) as [Hodd|_];
    [|reflexivity].
  rewrite length_app. simpl length.
  replace (length hashes + 1)%coq_nat with (S (length hashes)) by lia.
  set (next := pair_up (pad hashes)).
  assert (Hnext : exists h, nth_error next 0 = Some h).
  { apply (nth_error_in_range (l := next) (i := 0)).
    assert (Hl := len_pair_up (pad_even hashes)). subst next.
    Z.div_mod_to_equations; lia. }
  destruct Hnext as [h Hh].
  destruct (length hashes) as [|n] eqn:En; [unfold len in Hlen; lia|].
  destruct (@collect_then_build n next 0 [] h) as (sibs & _ & Hb).
  - assert (Hl := len_pair_up (pad_even hashes)). subst next.
    unfold len in *. Z.div_mod_to_equations; lia.
  - lia.
  - exact Hh.
  - rewrite Hb. now apply build_tree_rec_more_fuel.
Qed.

(** What [prove_fragment] returns at a valid index: the collected siblings
    fold the leaf hash into the root of the padded leaf level. *)
Lemma prove_fragment_path (soul : soul_arg) (i : Z) :
  0 <= i < len (leaves_of soul) ->
  exists leaf sibs,
    nth_error (leaves_of soul) (Z.to_nat i) = Some leaf /\
    _build_tree (pad (map _leaf_hash (leaves_of soul))) =
      Ok (fold_path sibs (_leaf_hash leaf)) /\
    prove_fragment soul i =
      Ok {| leaf_index := i; leaf_hash := _leaf_hash leaf; siblings := sibs;
            root := fold_path sibs (_leaf_hash leaf) |}.
Proof.
  intros Hi. unfold prove_fragment.
  set (leaves := leaves_of soul) in *.
  destruct (nth_error_in_range Hi) as [leaf Hleaf].
  rewrite (getitem_nth (proj1 Hi) Hleaf). cbn [bind].
  assert (Hh : nth_error (pad (map _leaf_hash leaves)) (Z.to_nat i)
               = Some (_leaf_hash leaf))
    by (apply nth_error_pad; now apply map_nth_error).
  destruct (@collect_then_build (length (pad (map _leaf_hash leaves)))
              (pad (map _leaf_hash leaves)) i [] (_leaf_hash leaf))
    as (sibs & Hc & Hb); [apply Nat.le_refl|lia|exact Hh|].
  exists leaf, sibs. unfold _collect_siblings, _build_tree.
  rewrite Hc Hb. cbn [bind app]. now repeat split.
Qed.

(** C3.  Merkle proof round trip: for every non-empty fragment sequence and
    every index [0 <= i < len(F)], [prove_fragment] returns a proof and
    [verify_proof] accepts it. *)
Theorem prove_fragment_verifies (soul : soul_arg) (i : Z) :
  leaves_of soul <> [] ->
  0 <= i < len (leaves_of soul) ->
  exists proof,
    prove_fragment soul i = Ok proof /\ verify_proof proof = true.
Proof.
  intros _ Hi.
  destruct (prove_fragment_path Hi) as (leaf & sibs & _ & _ & Hp).
  eexists. split; [exact Hp|].
  unfold verify_proof. cbn [siblings leaf_hash root].
  apply String.eqb_refl.
Qed.

(** [compute_root] always returns a root. *)
Lemma compute_root_total (soul : soul_arg) :
  exists r, compute_root soul = Ok r.
Proof.
  unfold compute_root. destruct (leaves_of soul) as [|leaf leaves] eqn:E.
  - now eexists.
  - set (hashes := map _leaf_hash (leaf :: leaves)).
    destruct (@collect_then_build (length hashes) hashes 0 []
                (_leaf_hash leaf))
      as (sibs & _ & Hb); [apply Nat.le_refl|lia|reflexivity|].
    eexists. exact Hb.
Qed.

(** C4, the single-fragment soul.  [prove_fragment] pads the one leaf hash
    [h] to [[h; h]] before building the tree, so the proof carries the root
    [_node_hash h h], while [compute_root] commits to [h] itself. *)
Theorem prove_fragment_single_root (fragment : json) :
  exists proof,
    prove_fragment (OfLeaves [fragment]) 0 = Ok proof /\
    root proof = _node_hash (_leaf_hash fragment) (_leaf_hash fragment) /\
    compute_root (OfLeaves [fragment]) = Ok (_leaf_hash fragment).
Proof.
  eexists. split; [reflexivity|]. split; reflexivity.
Qed.

(** From two fragments on, the proof's root is the committed root. *)
Lemma prove_fragment_root_agrees (soul : soul_arg) (i : Z) :
  1 < len (leaves_of soul) ->
  0 <= i < len (leaves_of soul) ->
  exists proof,
    prove_fragment soul i = Ok proof /\ compute_root soul = Ok (root proof).
Proof.
  intros Hlen Hi.
  destruct (prove_fragment_path Hi) as (leaf & sibs & _ & Hb & Hp).
  eexists. split; [exact Hp|]. cbn [root].
  rewrite -> build_tree_pad in Hb by now rewrite len_map.
  unfold compute_root.
  destruct (leaves_of soul); [discriminate|exact Hb].
Qed.

End WithExternals.

Import Sample.

Lemma prove_fragment_verifies_witness :
  exists proof,
    prove_fragment (OfSoul sample_soul) 2 = Ok proof /\
    verify_proof proof = true.
Proof.
  apply (@prove_fragment_verifies Sample.externals (OfSoul sample_soul) 2).
  - discriminate.
  - vm_compute. split; [discriminate|reflexivity].
Defined.

(** With the sample libraries the two roots of a one-fragment soul are
    different strings. *)
Lemma single_root_differs :
  exists proof r,
    prove_fragment (OfLeaves [asdict_fragment (sample_fragment "values" "loyalty" "fierce")]) 0
      = Ok proof /\
    compute_root (OfLeaves [asdict_fragment (sample_fragment "values" "loyalty" "fierce")])
      = Ok r /\
    String.eqb (root proof) r = false.
Proof.
  eexists. eexists. split; [reflexivity|]. split; [reflexivity|].
  vm_compute. reflexivity.
Qed.

End IntegrityFacts.

(** ** soul_encoder.py and soul_decoder.py: the wire format and the round trip *)

Module CodecFacts.
Import PyFacts.

(** Name the elements of a list whose length is a known numeral. *)
Ltac explode l H :=
  repeat (destruct l as [|? l]; simpl in H; try discriminate H).

Section WithExternals.
Context {L : Externals}.

(** The record survives the JSON library: [json.loads] gives back the value
    that [json.dumps] was given. *)
Definition json_faithful (v : json) : Prop :=
  json_loads (json_dumps v) = Ok v.

(** The payload [encode] assembles from the canonical JSON bytes [raw]. *)
Definition pack (key nonce raw : bytes) : bytes :=
  (Encoder.MAGIC ++ [x01]) ++ nonce ++ to_bytes_digits 4 (len raw) ++
  aesgcm_encrypt key nonce (zlib_compress raw) Encoder.MAGIC.

Lemma len_pack (key nonce raw : bytes) :
  len nonce = 12 ->
  len (pack key nonce raw) =
    22 + len (aesgcm_encrypt key nonce (zlib_compress raw) Encoder.MAGIC).
Proof.
  intros Hn. unfold pack. rewrite !len_app Hn.
  unfold len. simpl length. lia.
Qed.

Lemma encode_pack (enc : Encoder.SoulEncoder) (nonce : bytes) (soul : Soul) :
  len (json_dumps (asdict soul)) < 2 ^ 32 ->
  Encoder.encode enc nonce soul =
    Ok (pack (Encoder._key enc) nonce (json_dumps (asdict soul))).
Proof.
  intros Hsize. unfold Encoder.encode, pack.
  rewrite -> to_bytes_big_ok
    by (split; [apply len_nonneg|exact Hsize]).
  reflexivity.
Qed.

(** What [decode] does after the header of a well-formed payload. *)
Definition decode_body (self : Decoder.SoulDecoder) (now : nat -> spec_float)
    (nonce : bytes) (original_size : Z) (ciphertext : bytes) : result Soul :=
  compressed <-
    try_except_Exception
      (aesgcm_decrypt (Decoder._key self) nonce ciphertext Encoder.MAGIC)
      (fun e =>
         Raise (Exn SoulDecodeError
           ("Decryption failed (wrong key or corrupted data): "
            ++ exn_str e)%string)) ;;
  raw <-
    try_except (zlib_decompress compressed) ZlibError
      (fun e =>
         Raise (Exn SoulDecodeError
           ("Decompression failed: " ++ exn_str e)%string)) ;;
  if negb (len raw =? original_size) then
    Raise (Exn SoulDecodeError
             ("Size mismatch: expected " ++ Decoder.str_int original_size
              ++ ", got " ++ Decoder.str_int (len raw))%string)
  else
    obj <-
      try_except (json_loads raw) JSONDecodeError
        (fun e =>
           Raise (Exn SoulDecodeError
             ("JSON parse failed: " ++ exn_str e)%string)) ;;
    Decoder._reconstruct now obj.

Lemma decode_header (self : Decoder.SoulDecoder) (now : nat -> spec_float)
    (nonce size_bytes ciphertext : bytes) :
  length nonce = 12%nat ->
  length size_bytes = 4%nat ->
  Decoder.decode self now
    ((Encoder.MAGIC ++ [x01]) ++ nonce ++ size_bytes ++ ciphertext) =
  decode_body self now nonce (from_bytes_big size_bytes) ciphertext.
Proof.
  intros Hn Hs. explode nonce Hn. explode size_bytes Hs.
  unfold Decoder.decode.
  set (data := (Encoder.MAGIC ++ [x01]) ++ _).
  assert (Hlen : len data = 22 + len ciphertext).
  { subst data. unfold len. simpl length. lia. }
  destruct (Z.ltb_spec (len data) 22) as [Hlt|_];
    [assert (H0 := @len_nonneg _ ciphertext); lia|].
  assert (Hv : getitem (map int_of_byte data) 5 = Ok 1)
    by (apply getitem_nth; [lia|reflexivity]).
  rewrite Hv. reflexivity.
Qed.

Lemma decode_pack (self : Decoder.SoulDecoder) (now : nat -> spec_float)
    (nonce raw : bytes) :
  len nonce = 12 ->
  len raw < 2 ^ 32 ->
  Decoder.decode self now (pack (Decoder._key self) nonce raw) =
    (obj <-
       try_except (json_loads raw) JSONDecodeError
         (fun e =>
            Raise (Exn SoulDecodeError
              ("JSON parse failed: " ++ exn_str e)%string)) ;;
     Decoder._reconstruct now obj).
Proof.
  intros Hn Hsize. unfold pack.
  rewrite -> decode_header
    by (try apply length_to_bytes_digits; unfold len in Hn; lia).
  unfold decode_body.
  rewrite aesgcm_inverse. cbn [try_except_Exception bind].
  rewrite zlib_inverse. cbn [try_except bind].
  rewrite -> from_bytes_to_bytes_digits
    by (split; [apply len_nonneg|exact Hsize]).
  now rewrite Z.eqb_refl.
Qed.

Lemma build_fragments_asdict (now : nat -> spec_float) (frags : list SoulFragment) :
  forall n,
    Decoder.build_fragments now n (map asdict_fragment frags) = Ok frags.
Proof.
  induction frags as [|f frags IH]; intros n; [reflexivity|].
  cbn [map Decoder.build_fragments]. rewrite IH. now destruct f.
Qed.

Lemma reconstruct_asdict (now : nat -> spec_float) (soul : Soul) :
  Decoder._reconstruct now (asdict soul) = Ok soul.
Proof.
  unfold Decoder._reconstruct, asdict. cbn [Decoder.pop_fragments lookup bind].
  cbn. rewrite build_fragments_asdict. now destruct soul.
Qed.

Lemma encoder_init_ok (K : bytes) :
  len K = 32 -> Encoder.init K = Ok {| Encoder._key := K |}.
Proof. intros HK. unfold Encoder.init. now rewrite HK. Qed.

Lemma decoder_init_ok (K : bytes) :
  len K = 32 -> Decoder.init K = Ok {| Decoder._key := K |}.
Proof. intros HK. unfold Decoder.init. now rewrite HK. Qed.

(** The round trip through [encode] and [decode], for an encoder and a
    decoder holding the same key. *)
Lemma decode_encode (K nonce : bytes) (R : Soul) (now : nat -> spec_float) :
  len nonce = 12 ->
  json_faithful (asdict R) ->
  len (json_dumps (asdict R)) < 2 ^ 32 ->
  exists payload,
    Encoder.encode {| Encoder._key := K |} nonce R = Ok payload /\
    Decoder.decode {| Decoder._key := K |} now payload = Ok R.
Proof.
  intros Hn Hjson Hsize. eexists. split; [now apply encode_pack|].
  change (Encoder._key {| Encoder._key := K |})
    with (Decoder._key {| Decoder._key := K |}).
  rewrite -> decode_pack by assumption.
  rewrite Hjson. cbn [try_except bind]. apply reconstruct_asdict.
Qed.

(** C1 (amended).  Codec round trip: for a 32-byte key [K], a 12-byte
    nonce and a record [R] whose fields hold values of the JSON data model
    without NaN, whose dict [json.loads] reads back from the text
    [json.dumps] wrote, and whose canonical JSON has fewer than [2^32]
    bytes, [SoulDecoder(K).decode(SoulEncoder(K).encode(R))] is [R]: every
    field, and the fragment list in its order. *)
Theorem codec_round_trip (K nonce : bytes) (R : Soul)
    (now : nat -> spec_float) :
  len K = 32 ->
  len nonce = 12 ->
  PyValue.has_nan (asdict R) = false ->
  json_faithful (asdict R) ->
  len (json_dumps (asdict R)) < 2 ^ 32 ->
  exists enc dec payload decoded,
    Encoder.init K = Ok enc /\
    Decoder.init K = Ok dec /\
    Encoder.encode enc nonce R = Ok payload /\
    Decoder.decode dec now payload = Ok decoded /\
    decoded = R /\ fragments decoded = fragments R.
Proof.
  intros HK Hn _ Hjson Hsize.
  destruct (decode_encode K now Hn Hjson Hsize) as (payload & He & Hd).
  exists {| Encoder._key := K |}, {| Decoder._key := K |}, payload, R.
  repeat split; try assumption.
  - now apply encoder_init_ok.
  - now apply decoder_init_ok.
Qed.

(** C6.  Wire format: [encode] returns the magic [ATMAN], the version byte
    1, the 12-byte nonce, the length of the canonical JSON (before
    compression) as 4 big-endian bytes, and the AEAD output; the payload is
    at least 22 bytes long. *)
Theorem encode_wire_format (K nonce : bytes) (R : Soul) :
  len K = 32 ->
  len nonce = 12 ->
  len (json_dumps (asdict R)) < 2 ^ 32 ->
  let raw := json_dumps (asdict R) in
  exists enc size_bytes payload,
    Encoder.init K = Ok enc /\
    Encoder.encode enc nonce R = Ok payload /\
    payload =
      encode_utf8 "ATMAN" ++ [x01] ++ nonce ++ size_bytes ++
      aesgcm_encrypt K nonce (zlib_compress raw) (encode_utf8 "ATMAN") /\
    len size_bytes = 4 /\
    from_bytes_big size_bytes = len raw /\
    22 <= len payload.
Proof.
  intros HK Hn Hsize raw.
  exists {| Encoder._key := K |}, (to_bytes_digits 4 (len raw)).
  eexists. split; [now apply encoder_init_ok|].
  split; [now apply encode_pack|].
  split; [reflexivity|]. split; [|split].
  - unfold len. now rewrite length_to_bytes_digits.
  - apply from_bytes_to_bytes_digits. split; [apply len_nonneg|exact Hsize].
  - rewrite -> len_pack by exact Hn.
    assert (H := @len_nonneg _
      (aesgcm_encrypt (Encoder._key {| Encoder._key := K |}) nonce
         (zlib_compress (json_dumps (asdict R))) Encoder.MAGIC)).
    lia.
Qed.

(** *** How [decode] classifies its failures *)

Definition is_decode_error (r : result Soul) : Prop :=
  match r with
  | Raise e => exn_cls e = SoulDecodeError
  | Ok _ => False
  end.

Lemma decode_too_short (self : Decoder.SoulDecoder) now (data : bytes) :
  len data < 22 ->
  Decoder.decode self now data =
    Raise (Exn SoulDecodeError "Payload too short").
Proof.
  intros H. unfold Decoder.decode.
  now destruct (Z.ltb_spec (len data) 22); [|lia].
Qed.

Lemma decode_bad_magic (self : Decoder.SoulDecoder) now (data : bytes) :
  22 <= len data ->
  slice data 0 5 <> Encoder.MAGIC ->
  is_decode_error (Decoder.decode self now data).
Proof.
  intros H Hm. unfold Decoder.decode.
  destruct (Z.ltb_spec (len data) 22); [lia|].
  destruct (Decoder.bytes_eqb (slice data 0 5) Encoder.MAGIC) eqn:E;
    [now apply bytes_eqb_eq in E|reflexivity].
Qed.

Lemma decode_bad_version (self : Decoder.SoulDecoder) now (data : bytes)
    (v : Z) :
  22 <= len data ->
  slice data 0 5 = Encoder.MAGIC ->
  getitem (map int_of_byte data) 5 = Ok v ->
  v <> 1 ->
  is_decode_error (Decoder.decode self now data).
Proof.
  intros H Hm Hv Hne. unfold Decoder.decode.
  destruct (Z.ltb_spec (len data) 22); [lia|].
  rewrite Hm bytes_eqb_refl Hv. cbn [negb bind].
  now destruct (Z.eqb_spec v Encoder.FORMAT_VERSION).
Qed.

(** After a well-formed header, a failure of AES-GCM, a [zlib.error], a size
    mismatch and a [JSONDecodeError] are each turned into a
    [SoulDecodeError]. *)
Lemma decode_body_decrypt_failed self now nonce size ct e :
  aesgcm_decrypt (Decoder._key self) nonce ct Encoder.MAGIC = Raise e ->
  is_decode_error (decode_body self now nonce size ct).
Proof. intros H. unfold decode_body. now rewrite H. Qed.

Lemma decode_body_decompress_failed self now nonce size ct compressed msg :
  aesgcm_decrypt (Decoder._key self) nonce ct Encoder.MAGIC = Ok compressed ->
  zlib_decompress compressed = Raise (Exn ZlibError msg) ->
  is_decode_error (decode_body self now nonce size ct).
Proof. intros H1 H2. unfold decode_body. now rewrite H1 /= H2. Qed.

Lemma decode_body_size_mismatch self now nonce size ct compressed raw :
  aesgcm_decrypt (Decoder._key self) nonce ct Encoder.MAGIC = Ok compressed ->
  zlib_decompress compressed = Ok raw ->
  len raw <> size ->
  is_decode_error (decode_body self now nonce size ct).
Proof.
  intros H1 H2 H3. unfold decode_body. rewrite H1 /= H2 /=.
  now destruct (Z.eqb_spec (len raw) size).
Qed.

Lemma decode_body_json_failed self now nonce ct compressed raw msg :
  aesgcm_decrypt (Decoder._key self) nonce ct Encoder.MAGIC = Ok compressed ->
  zlib_decompress compressed = Ok raw ->
  json_loads raw = Raise (Exn JSONDecodeError msg) ->
  is_decode_error (decode_body self now nonce (len raw) ct).
Proof.
  intros H1 H2 H3. unfold decode_body. rewrite H1 /= H2 /= Z.eqb_refl /= H3.
  reflexivity.
Qed.

(** C5, the failure that is not classified.  A payload with a well-formed
    header that decrypts and decompresses to JSON text for the empty object
    passes every check of [decode]; [_reconstruct] then looks up
    ["agent_id"], and the [KeyError] leaves [decode] as it is, not as a
    [SoulDecodeError]. *)
Theorem decode_reconstruct_error_escapes (K nonce raw : bytes)
    (now : nat -> spec_float) :
  len K = 32 ->
  len nonce = 12 ->
  len raw < 2 ^ 32 ->
  json_loads raw = Ok (JDict []) ->
  exists dec e,
    Decoder.init K = Ok dec /\
    Decoder.decode dec now (pack K nonce raw) = Raise e /\
    e = Exn KeyError "'agent_id'" /\
    is_class SoulDecodeError e = false.
Proof.
  intros HK Hn Hsize Hjson.
  exists {| Decoder._key := K |}, (Exn KeyError "'agent_id'").
  split; [now apply decoder_init_ok|]. split; [|now split].
  change K with (Decoder._key {| Decoder._key := K |}) at 2.
  rewrite -> decode_pack by assumption.
  now rewrite Hjson.
Qed.

End WithExternals.

(** The statements above at a concrete key, nonce and record, with the
    sample libraries. *)

Import Sample.

Lemma codec_round_trip_witness :
  exists enc dec payload decoded,
    Encoder.init sample_key = Ok enc /\
    Decoder.init sample_key = Ok dec /\
    Encoder.encode enc sample_nonce sample_soul = Ok payload /\
    Decoder.decode dec sample_clock payload = Ok decoded /\
    decoded = sample_soul /\ fragments decoded = fragments sample_soul.
Proof.
  apply (@codec_round_trip Sample.externals sample_key sample_nonce
           sample_soul sample_clock); vm_compute; reflexivity.
Defined.

Lemma encode_wire_format_witness :
  exists enc size_bytes payload,
    Encoder.init sample_key = Ok enc /\
    Encoder.encode enc sample_nonce sample_soul = Ok payload /\
    payload =
      encode_utf8 "ATMAN" ++ [x01] ++ sample_nonce ++ size_bytes ++
      aesgcm_encrypt sample_key sample_nonce
        (zlib_compress (json_dumps (asdict sample_soul)))
        (encode_utf8 "ATMAN") /\
    len size_bytes = 4 /\
    from_bytes_big size_bytes = len (json_dumps (asdict sample_soul)) /\
    22 <= len payload.
Proof.
  apply (@encode_wire_format Sample.externals sample_key sample_nonce
           sample_soul); vm_compute; reflexivity.
Defined.

Lemma decode_reconstruct_error_escapes_witness :
  exists dec e,
    Decoder.init sample_key = Ok dec /\
    Decoder.decode dec sample_clock
      (pack sample_key sample_nonce (json_dumps (JDict []))) = Raise e /\
    e = Exn KeyError "'agent_id'" /\
    is_class SoulDecodeError e = false.
Proof.
  apply (@decode_reconstruct_error_escapes Sample.externals sample_key
           sample_nonce (json_dumps (JDict [])) sample_clock);
    vm_compute; reflexivity.
Defined.

(** A record with one fragment whose value is the tuple [(1, 2)]. *)
Definition tuple_soul : PyValue.PySoul :=
  {| PyValue.agent_id := JStr "mohini-v1";
     PyValue.version := JInt 1;
     PyValue.fragments :=
       [{| PyValue.domain := JStr "values";
           PyValue.key := JStr "pair";
           PyValue.value := PyValue.PTuple [PyValue.PInt 1; PyValue.PInt 2];
           PyValue.weight := JFloat float_one;
           PyValue.timestamp := JFloat float_one;
           PyValue.provenance := JStr "" |}];
     PyValue.created_at := JFloat float_one;
     PyValue.model_origin := JStr "";
     PyValue.metadata := JDict [] |}.

(** C1 as the spec words it, for every record with JSON-serializable
    fragment values, fails on a tuple: [json.dumps] writes [(1, 2)] as the
    array [[1,2]], [json.loads] returns the list [[1, 2]], and the decoded
    record is not the encoded one. *)
Lemma codec_round_trip_counterexample :
  exists payload decoded,
    Encoder.encode {| Encoder._key := sample_key |} sample_nonce
      (PyValue.written tuple_soul) = Ok payload /\
    Decoder.decode {| Decoder._key := sample_key |} sample_clock payload
      = Ok decoded /\
    map PyValue.value (PyValue.fragments (PyValue.read decoded))
      = [PyValue.PList [PyValue.PInt 1; PyValue.PInt 2]] /\
    map PyValue.value (PyValue.fragments tuple_soul)
      = [PyValue.PTuple [PyValue.PInt 1; PyValue.PInt 2]] /\
    PyValue.read decoded <> tuple_soul.
Proof.
  eexists. eexists. split; [vm_compute; reflexivity|].
  split; [vm_compute; reflexivity|].
  split; [reflexivity|]. split; [reflexivity|].
  vm_compute. discriminate.
Qed.

End CodecFacts.

(** ** resurrection.py: what [resurrect] and [full_ceremony] report *)

Module ResurrectionFacts.
Import PyFacts Resurrection.

Section WithExternals.
Context {L : Externals}.

Lemma lookup_setitem (k : string) (v : json) (d : list (string * json)) :
  lookup k (setitem k v d) = Some v.
Proof.
  induction d as [|[k' v'] d IH]; simpl.
  - now rewrite String.eqb_refl.
  - destruct (String.eqb k k') eqn:E; simpl.
    + now rewrite String.eqb_refl.
    + destruct (String.ltb k k'); simpl.
      * now rewrite String.eqb_refl.
      * now rewrite E.
Qed.

Lemma local_get_set (k : string) (v : bytes) (d : Store.local_state) :
  Store.local_get k (Store.local_set k v d) = Some v.
Proof.
  induction d as [|[k' v'] d IH]; simpl.
  - now rewrite String.eqb_refl.
  - destruct (String.eqb k k') eqn:E; simpl.
    + now rewrite String.eqb_refl.
    + now rewrite E.
Qed.

(** The error text of a failed resurrection. *)
Definition error_text (e : exn) : string :=
  if is_class SoulDecodeError e then ("Decode failed: " ++ exn_str e)%string
  else exn_str e.

Definition failure (tx_id : string) (start finish : spec_float) (e : exn)
    : ResurrectionResult :=
  {| success := false; soul := None; source_tx := tx_id;
     integrity_verified := false;
     elapsed_ms := elapsed_since start finish;
     error := error_text e; metadata := [] |}.

Lemma error_text_nonempty (e : exn) :
  is_class SoulDecodeError e = true \/ exn_str e <> ""%string ->
  error_text e <> ""%string.
Proof.
  unfold error_text. intros [H|H].
  - rewrite H. discriminate.
  - destruct (is_class SoulDecodeError e); [discriminate|exact H].
Qed.

(** The integrity phase of [resurrect] on a decoded soul. *)
Definition integrity_phase (self : ResurrectionProtocol) (s : Soul)
    : result bool :=
  if _verify self then
    stored <- metadata_get (SoulModel.metadata s) "merkle_root" ;;
    if truthy stored then
      computed_root <- Integrity.compute_root (Integrity.OfSoul s) ;;
      stored_root <- metadata_getitem (SoulModel.metadata s) "merkle_root" ;;
      Ok (str_eq_value computed_root stored_root)
    else Ok true
  else Ok true.

Definition revived (tx_id : string) (start finish : spec_float) (s : Soul)
    (integrity_ok : bool) : ResurrectionResult :=
  {| success := true; soul := Some s; source_tx := tx_id;
     integrity_verified := integrity_ok;
     elapsed_ms := elapsed_since start finish;
     error := "";
     metadata :=
       [("fragment_count", JInt (len (fragments s)));
        ("model_origin", model_origin s);
        ("soul_version", version s)] |}.

(** [resurrect], one case per phase. *)
Lemma resurrect_cases {S : Type} (store : Store.ArweaveStore S)
    (self : ResurrectionProtocol) (st : S) (tx_id : string)
    (start finish : spec_float) (now : nat -> spec_float) :
  resurrect store self st tx_id start finish now =
  match Store.download store st tx_id with
  | Raise e => Ok (failure tx_id start finish e)
  | Ok data =>
      match Decoder.decode (_decoder self) now data with
      | Raise e => Ok (failure tx_id start finish e)
      | Ok s =>
          match integrity_phase self s with
          | Raise e => Ok (failure tx_id start finish e)
          | Ok b => Ok (revived tx_id start finish s b)
          end
      end
  end.
Proof.
  unfold resurrect, try_except_2, failure, error_text.
  destruct (Store.download store st tx_id) as [data|e]; cbn [bind].
  2: now destruct (is_class SoulDecodeError e).
  destruct (Decoder.decode (_decoder self) now data) as [s|e]; cbn [bind].
  2: now destruct (is_class SoulDecodeError e).
  fold (integrity_phase self s).
  destruct (integrity_phase self s) as [b|e]; cbn [bind].
  - reflexivity.
  - now destruct (is_class SoulDecodeError e).
Qed.

Lemma str_eq_value_false (computed : string) (stored : json) :
  stored <> JStr computed -> str_eq_value computed stored = false.
Proof.
  intros H. destruct stored; try reflexivity. simpl.
  destruct (String.eqb_spec computed s); [now subst|reflexivity].
Qed.

(** C7 (amended).  [resurrect] lets no instance of [Exception] reach its
    caller (an exception outside [Exception], such as
    [asyncio.CancelledError] at the [await] of the download, is not caught):
    whatever instance of [Exception] the download or the decoder throws,
    it returns a result with
    [success = false], the elapsed time, and as error text
    ["Decode failed: "] followed by the message for a [SoulDecodeError] and
    the exception's own text otherwise (so the text is non-empty for a
    [SoulDecodeError] and whenever the exception's text is).  When the
    decode succeeds, [verify_integrity] is set, and the metadata holds a
    truthy [merkle_root] that differs from the recomputed root, the result
    has [success = true] and [integrity_verified = false]. *)
Theorem resurrect_contains_errors {S : Type} (store : Store.ArweaveStore S)
    (self : ResurrectionProtocol) (st : S) (tx_id : string)
    (start finish : spec_float) (now : nat -> spec_float) :
  exists r,
    resurrect store self st tx_id start finish now = Ok r /\
    elapsed_ms r = elapsed_since start finish /\
    (forall e,
       Store.download store st tx_id = Raise e ->
       success r = false /\ error r = error_text e /\
       (is_class SoulDecodeError e = true \/ exn_str e <> ""%string ->
        error r <> ""%string)) /\
    (forall data e,
       Store.download store st tx_id = Ok data ->
       Decoder.decode (_decoder self) now data = Raise e ->
       success r = false /\ error r = error_text e /\
       (is_class SoulDecodeError e = true \/ exn_str e <> ""%string ->
        error r <> ""%string)) /\
    (forall data s d stored computed,
       Store.download store st tx_id = Ok data ->
       Decoder.decode (_decoder self) now data = Ok s ->
       _verify self = true ->
       SoulModel.metadata s = JDict d ->
       lookup "merkle_root" d = Some stored ->
       truthy stored = true ->
       Integrity.compute_root (Integrity.OfSoul s) = Ok computed ->
       stored <> JStr computed ->
       success r = true /\ soul r = Some s /\ integrity_verified r = false).
Proof.
  rewrite resurrect_cases.
  destruct (Store.download store st tx_id) as [data|e].
  2:{ eexists. split; [reflexivity|]. split; [reflexivity|].
      split; [|split]; try discriminate.
      intros e' He. injection He as He. subst e'.
      cbn. split; [reflexivity|]. split; [reflexivity|].
      apply error_text_nonempty. }
  destruct (Decoder.decode (_decoder self) now data) as [s|e] eqn:Hdec.
  2:{ eexists. split; [reflexivity|]. split; [reflexivity|].
      split; [discriminate|]. split.
      - intros data' e' Hd He. injection Hd as Hd. subst data'.
        rewrite Hdec in He. injection He as He. subst e'. cbn.
        split; [reflexivity|]. split; [reflexivity|].
        apply error_text_nonempty.
      - intros data' s' d stored computed Hd Hs.
        injection Hd as Hd. subst data'. rewrite Hdec in Hs. discriminate. }
  destruct (integrity_phase self s) as [b|e] eqn:Hphase.
  - eexists. split; [reflexivity|]. split; [reflexivity|].
    split; [discriminate|]. split.
    + intros data' e' Hd He. injection Hd as Hd. subst data'.
      rewrite Hdec in He. discriminate.
    + intros data' s' d stored computed Hd Hs Hv Hm Hl Ht Hc Hne.
      injection Hd as Hd. subst data'. rewrite Hdec in Hs.
      injection Hs as Hs. subst s'.
      cbn. split; [reflexivity|]. split; [reflexivity|].
      unfold integrity_phase, metadata_get, metadata_getitem in Hphase.
      rewrite Hv Hm Hl /= Ht Hc /= in Hphase.
      rewrite -> (str_eq_value_false Hne) in Hphase. congruence.
  - eexists. split; [reflexivity|]. split; [reflexivity|].
    split; [discriminate|]. split.
    + intros data' e' Hd He. injection Hd as Hd. subst data'.
      rewrite Hdec in He. discriminate.
    + intros data' s' d stored computed Hd Hs Hv Hm Hl Ht Hc Hne.
      injection Hd as Hd. subst data'. rewrite Hdec in Hs.
      injection Hs as Hs. subst s'.
      unfold integrity_phase, metadata_get, metadata_getitem in Hphase.
      rewrite Hv Hm Hl /= Ht Hc /= in Hphase. discriminate.
Qed.

(** C10.  When the decode succeeds and either [verify_integrity] is off or
    the metadata dict has no [merkle_root] or a falsy one, [resurrect]
    reports [integrity_verified = true] although no root was compared. *)
Theorem resurrect_unchecked_is_verified {S : Type}
    (store : Store.ArweaveStore S) (self : ResurrectionProtocol) (st : S)
    (tx_id : string) (start finish : spec_float) (now : nat -> spec_float)
    (data : bytes) (s : Soul) :
  Store.download store st tx_id = Ok data ->
  Decoder.decode (_decoder self) now data = Ok s ->
  _verify self = false \/
  (exists d,
     SoulModel.metadata s = JDict d /\
     (lookup "merkle_root" d = None \/
      exists v, lookup "merkle_root" d = Some v /\ truthy v = false)) ->
  exists r,
    resurrect store self st tx_id start finish now = Ok r /\
    success r = true /\ soul r = Some s /\ integrity_verified r = true.
Proof.
  intros Hd Hs Hskip. rewrite resurrect_cases Hd Hs.
  assert (Hphase : integrity_phase self s = Ok true).
  { unfold integrity_phase.
    destruct Hskip as [Hv|(d & Hm & [Hl|(v & Hl & Ht)])].
    - now rewrite Hv.
    - destruct (_verify self); [|reflexivity].
      unfold metadata_get. now rewrite Hm Hl.
    - destruct (_verify self); [|reflexivity].
      unfold metadata_get. now rewrite Hm Hl /= Ht. }
  rewrite Hphase. eexists. now repeat split.
Qed.

(** The soul [full_ceremony] encodes: the input with the Merkle root
    stored in its metadata. *)
Definition with_merkle_root (s : Soul) (d : list (string * json))
    (merkle_root : string) : Soul :=
  {| agent_id := agent_id s; version := version s;
     fragments := fragments s; created_at := created_at s;
     model_origin := model_origin s;
     SoulModel.metadata := JDict (setitem "merkle_root" (JStr merkle_root) d) |}.

(** C9 (amended).  Full-ceremony self check against the in-memory store,
    for a record with a dict as metadata whose fields, with the Merkle root
    added, hold values of the JSON data model without NaN that
    [json.loads] reads back from the text [json.dumps] wrote, in fewer than
    [2^32] bytes: the Merkle root of the record's fragments is stored in
    its metadata, the record is encoded and uploaded under the receipt's
    id, and the result returned is that of [resurrect] on this id, with
    [success = true], [integrity_verified = true] and a decoded record with
    the input's [agent_id] and fragments. *)
Theorem full_ceremony_self_check (K nonce : bytes) (verify : bool)
    (st : Store.local_state) (s : Soul) (d : list (string * json))
    (merkle_root : string) (tags : option (list (string * json)))
    (upload_time start finish : spec_float) (now : nat -> spec_float) :
  len K = 32 ->
  len nonce = 12 ->
  SoulModel.metadata s = JDict d ->
  Integrity.compute_root (Integrity.OfSoul s) = Ok merkle_root ->
  PyValue.has_nan (asdict (with_merkle_root s d merkle_root)) = false ->
  CodecFacts.json_faithful (asdict (with_merkle_root s d merkle_root)) ->
  len (json_dumps (asdict (with_merkle_root s d merkle_root))) < 2 ^ 32 ->
  exists self st' receipt r payload decoded,
    init (Some K) None verify = Ok self /\
    full_ceremony Store.LocalArweaveStore self st s tags nonce upload_time
      start finish now
      = Ok (st', with_merkle_root s d merkle_root, receipt, r) /\
    Encoder.encode {| Encoder._key := K |} nonce
      (with_merkle_root s d merkle_root) = Ok payload /\
    Store.local_get (Store.tx_id receipt) st' = Some payload /\
    resurrect Store.LocalArweaveStore self st' (Store.tx_id receipt)
      start finish now = Ok r /\
    success r = true /\
    integrity_verified r = true /\
    soul r = Some decoded /\
    agent_id decoded = agent_id s /\
    fragments decoded = fragments s.
Proof.
  intros HK Hn Hm Hroot _ Hjson Hsize.
  set (s' := with_merkle_root s d merkle_root) in *.
  destruct (CodecFacts.decode_encode K now Hn Hjson Hsize)
    as (payload & Henc & Hdec).
  set (self := {| _key := K; _verify := verify;
                  _decoder := {| Decoder._key := K |} |}).
  assert (Hinit : init (Some K) None verify = Ok self).
  { unfold init. cbn [bind].
    now rewrite (CodecFacts.decoder_init_ok HK). }
  set (sha := sha256_hexdigest payload).
  set (tx := ("local-" ++ substring 0 32 sha)%string).
  set (st' := Store.local_set tx payload st).
  assert (Hres : resurrect Store.LocalArweaveStore self st' tx start finish now
                 = Ok (revived tx start finish s' true)).
  { rewrite resurrect_cases.
    cbn [Store.download Store.LocalArweaveStore]. unfold Store.local_download.
    subst st'. rewrite local_get_set.
    cbn [_decoder self]. rewrite Hdec.
    assert (Hphase : integrity_phase self s' = Ok true).
    { unfold integrity_phase, metadata_get, metadata_getitem.
      destruct (_verify self); [|reflexivity].
      cbn [SoulModel.metadata s' with_merkle_root].
      rewrite lookup_setitem. cbn [bind].
      destruct (truthy (JStr merkle_root)); [|reflexivity].
      change (Integrity.compute_root (Integrity.OfSoul s'))
        with (Integrity.compute_root (Integrity.OfSoul s)).
      rewrite Hroot. cbn [bind str_eq_value].
      now rewrite String.eqb_refl. }
    now rewrite Hphase. }
  exists self, st'. eexists. eexists. exists payload, s'.
  split; [exact Hinit|]. split.
  - unfold full_ceremony. cbn [_key self].
    rewrite (CodecFacts.encoder_init_ok HK). cbn [bind].
    rewrite Hroot. cbn [bind]. unfold metadata_setitem. rewrite Hm. cbn [bind].
    fold (with_merkle_root s d merkle_root). fold s'.
    rewrite Henc. cbn [bind].
    cbn [Store.upload Store.LocalArweaveStore]. unfold Store.local_upload.
    cbn [bind Store.tx_id]. fold sha. fold tx. fold st'.
    rewrite Hres. cbn [bind]. reflexivity.
  - split; [exact Henc|]. split; [apply local_get_set|].
    split; [exact Hres|]. now repeat split.
Qed.

End WithExternals.

(** *** Concrete runs with the sample libraries *)

Import Sample.

(** A store whose download fails with an exception that has no message, as
    a timeout of the HTTP client does. *)
Definition silent_store : Store.ArweaveStore unit :=
  {| Store.upload := fun _ _ _ _ =>
       Raise (Exn (OtherException "ReadTimeout") "");
     Store.download := fun _ _ =>
       Raise (Exn (OtherException "ReadTimeout") "") |}.

Definition with_metadata (s : Soul) (m : json) : Soul :=
  {| agent_id := agent_id s; version := version s;
     fragments := fragments s; created_at := created_at s;
     model_origin := model_origin s; SoulModel.metadata := m |}.

(** The sample soul with a stored root that is not its Merkle root, and
    with an empty stored root. *)
Definition bogus_soul : Soul :=
  with_metadata sample_soul (JDict [("merkle_root", JStr "bogus")]).

Definition blank_soul : Soul :=
  with_metadata sample_soul (JDict [("merkle_root", JStr "")]).

Definition payload_of (s : Soul) : bytes :=
  match Encoder.encode {| Encoder._key := sample_key |} sample_nonce s with
  | Ok payload => payload
  | Raise _ => []
  end.

Definition store_of (s : Soul) : Store.local_state := [("tx", payload_of s)].

Definition protocol (verify : bool) : ResurrectionProtocol :=
  {| _key := sample_key; _verify := verify;
     _decoder := {| Decoder._key := sample_key |} |}.

Definition t0 : spec_float := S754_zero false.
Definition t1 : spec_float := float_one.

Definition sample_root : string :=
  match Integrity.compute_root (Integrity.OfSoul sample_soul) with
  | Ok r => r
  | Raise _ => ""
  end.

(** C7 as the spec words it fails in three ways: a download error without a
    message gives an empty error text; with [verify_integrity] off, or with
    an empty stored root, a stored root that differs from the recomputed
    one is reported as [integrity_verified = true]. *)
Lemma resurrect_claim_counterexample :
  (exists r,
     resurrect silent_store (protocol true) tt "tx" t0 t1 sample_clock = Ok r /\
     success r = false /\ error r = ""%string) /\
  (exists r s computed,
     resurrect Store.LocalArweaveStore (protocol false) (store_of bogus_soul)
       "tx" t0 t1 sample_clock = Ok r /\
     soul r = Some s /\
     metadata_getitem (SoulModel.metadata s) "merkle_root"
       = Ok (JStr "bogus") /\
     Integrity.compute_root (Integrity.OfSoul s) = Ok computed /\
     String.eqb computed "bogus" = false /\
     success r = true /\ integrity_verified r = true) /\
  (exists r s computed,
     resurrect Store.LocalArweaveStore (protocol true) (store_of blank_soul)
       "tx" t0 t1 sample_clock = Ok r /\
     soul r = Some s /\
     metadata_getitem (SoulModel.metadata s) "merkle_root" = Ok (JStr "") /\
     Integrity.compute_root (Integrity.OfSoul s) = Ok computed /\
     String.eqb computed "" = false /\
     success r = true /\ integrity_verified r = true).
Proof.
  split; [|split].
  - eexists. vm_compute. repeat split.
  - eexists. exists bogus_soul. eexists. vm_compute. repeat split.
  - eexists. exists blank_soul. eexists. vm_compute. repeat split.
Qed.

(** With [verify_integrity] on and a stored root that is not the Merkle
    root, the mismatch is reported along with the soul. *)
Lemma resurrect_contains_errors_witness :
  exists r,
    resurrect Store.LocalArweaveStore (protocol true) (store_of bogus_soul)
      "tx" t0 t1 sample_clock = Ok r /\
    success r = true /\ soul r = Some bogus_soul /\
    integrity_verified r = false.
Proof.
  destruct (@resurrect_contains_errors Sample.externals _
              Store.LocalArweaveStore (protocol true) (store_of bogus_soul)
              "tx" t0 t1 sample_clock)
    as (r & Hr & _ & _ & _ & Hmismatch).
  exists r. split; [exact Hr|].
  apply (Hmismatch (payload_of bogus_soul) bogus_soul
           [("merkle_root", JStr "bogus")] (JStr "bogus") sample_root);
    try (vm_compute; reflexivity).
  vm_compute. discriminate.
Defined.

Lemma resurrect_unchecked_is_verified_witness :
  exists r,
    resurrect Store.LocalArweaveStore (protocol false) (store_of bogus_soul)
      "tx" t0 t1 sample_clock = Ok r /\
    success r = true /\ soul r = Some bogus_soul /\
    integrity_verified r = true.
Proof.
  apply (@resurrect_unchecked_is_verified Sample.externals _
           Store.LocalArweaveStore (protocol false) (store_of bogus_soul)
           "tx" t0 t1 sample_clock (payload_of bogus_soul) bogus_soul).
  - vm_compute. reflexivity.
  - vm_compute. reflexivity.
  - left. reflexivity.
Defined.

Lemma full_ceremony_self_check_witness :
  exists self st' receipt r payload decoded,
    init (Some sample_key) None true = Ok self /\
    full_ceremony Store.LocalArweaveStore self [] sample_soul None
      sample_nonce t0 t0 t1 sample_clock
      = Ok (st',
            with_merkle_root sample_soul
              [("note", JList [JInt 1; JBool true; JNull])] sample_root,
            receipt, r) /\
    Encoder.encode {| Encoder._key := sample_key |} sample_nonce
      (with_merkle_root sample_soul
         [("note", JList [JInt 1; JBool true; JNull])] sample_root)
      = Ok payload /\
    Store.local_get (Store.tx_id receipt) st' = Some payload /\
    resurrect Store.LocalArweaveStore self st' (Store.tx_id receipt)
      t0 t1 sample_clock = Ok r /\
    success r = true /\
    integrity_verified r = true /\
    soul r = Some decoded /\
    agent_id decoded = agent_id sample_soul /\
    fragments decoded = fragments sample_soul.
Proof.
  apply (@full_ceremony_self_check Sample.externals sample_key sample_nonce
           true [] sample_soul [("note", JList [JInt 1; JBool true; JNull])]
           sample_root None t0 t0 t1 sample_clock);
    vm_compute; reflexivity.
Defined.

(** C9 as the spec words it, for every record with JSON-serializable
    fragment values, fails on a tuple: the ceremony succeeds and the roots
    agree, since [(1, 2)] and [[1, 2]] have the same JSON text, but the
    decoded fragment holds the list, not the tuple of the input. *)
Lemma full_ceremony_counterexample :
  exists st' soul' receipt r decoded,
    full_ceremony Store.LocalArweaveStore (protocol true) []
      (PyValue.written CodecFacts.tuple_soul) None sample_nonce t0 t0 t1
      sample_clock
      = Ok (st', soul', receipt, r) /\
    success r = true /\
    integrity_verified r = true /\
    soul r = Some decoded /\
    PyValue.fragments (PyValue.read decoded)
      <> PyValue.fragments CodecFacts.tuple_soul.
Proof.
  do 5 eexists. split; [vm_compute; reflexivity|].
  split; [reflexivity|]. split; [reflexivity|].
  split; [reflexivity|]. vm_compute. discriminate.
Qed.

End ResurrectionFacts.

(** ** Lagrange interpolation over a field

    The interpolant through the values of a polynomial [f] at pairwise
    distinct nodes is [f] itself when [f] has no more coefficients than
    there are nodes: their difference has too many roots. *)

Module Interpolation.
Import GRing.Theory.
Local Open Scope ring_scope.

Section Lagrange.
Variable F : fieldType.

Definition basis_num (a : seq.seq F) (i : nat) : {poly F} :=
  \prod_(j <- iota 0 (size a) | j != i) ('X - (seq.nth 0 a j)%:P).

Definition basis_den (a : seq.seq F) (i : nat) : F :=
  \prod_(j <- iota 0 (size a) | j != i) (seq.nth 0 a i - seq.nth 0 a j).

Definition interpolant (a : seq.seq F) (f : {poly F}) : {poly F} :=
  \sum_(i <- iota 0 (size a)) (f.[seq.nth 0 a i] / basis_den a i) *: basis_num a i.

Lemma size_basis_num a i : (i < size a)%nat -> (size (basis_num a i) <= size a)%nat.
Proof.
move=> lt_i; rewrite /basis_num -big_filter size_prod_XsubC.
rewrite size_filter.
have c := count_predC (fun j => j != i) (iota 0 (size a)).
rewrite size_iota in c.
have h : (0 < count (predC (fun j => j != i)) (iota 0 (size a)))%nat.
  by rewrite -has_count; apply/hasP; exists i; rewrite ?mem_iota //= negbK.
by rewrite -[X in (_ < X)%nat]c -addn1 leq_add2l.
Qed.

Lemma size_interpolant (a : seq.seq F) (f : {poly F}) : (size (interpolant a f) <= size a)%nat.
Proof.
rewrite /interpolant.
apply: (leq_trans (size_sum _ _ _)).
apply/bigmax_leqP_seq => i; rewrite mem_iota /= add0n => lt_i _.
exact: (leq_trans (size_scale_leq _ _) (size_basis_num lt_i)).
Qed.

Lemma basis_den_neq0 a i : uniq a -> (i < size a)%nat -> basis_den a i != 0.
Proof.
move=> uniq_a lt_i; rewrite /basis_den prodf_seq_neq0.
apply/allP => j; rewrite mem_iota /= add0n => lt_j.
apply/implyP => ne_ji; rewrite subr_eq0.
by rewrite (nth_uniq 0 lt_i lt_j uniq_a) eq_sym.
Qed.

Lemma horner_basis_num a i m :
  uniq a -> (i < size a)%nat -> (m < size a)%nat ->
  (basis_num a i).[seq.nth 0 a m] = if m == i then basis_den a i else 0.
Proof.
move=> uniq_a lt_i lt_m; rewrite /basis_num horner_prod.
case: eqP => [->|/eqP ne_mi].
  by rewrite /basis_den; apply: eq_bigr => j _; rewrite hornerXsubC.
rewrite -big_filter (bigD1_seq m) /= ?mem_filter ?mem_iota ?ne_mi ?filter_uniq ?iota_uniq //.
by rewrite hornerXsubC subrr mul0r.
Qed.

Lemma horner_interpolant (a : seq.seq F) (f : {poly F}) m :
  uniq a -> (m < size a)%nat -> (interpolant a f).[seq.nth 0 a m] = f.[seq.nth 0 a m].
Proof.
move=> uniq_a lt_m; rewrite /interpolant horner_sum.
rewrite (bigD1_seq m) /= ?mem_iota ?iota_uniq //.
rewrite hornerZ horner_basis_num // eqxx divfK ?basis_den_neq0 //.
rewrite big_seq_cond big1 ?addr0 // => i; rewrite mem_iota /= add0n.
case/andP=> lt_i ne_im.
by rewrite hornerZ horner_basis_num // eq_sym (negbTE ne_im) mulr0.
Qed.

Lemma interpolantE (a : seq.seq F) (f : {poly F}) : uniq a -> (size f <= size a)%nat -> interpolant a f = f.
Proof.
move=> uniq_a le_f; apply/eqP; rewrite -subr_eq0; apply/eqP.
apply: (@roots_geq_poly_eq0 _ _ a) => //.
  apply/allP => x /(nthP 0) [m lt_m <-].
  by rewrite rootE hornerD hornerN horner_interpolant // subrr.
apply: (leq_trans (size_polyD _ _)); rewrite size_polyN geq_max le_f andbT.
exact: size_interpolant.
Qed.

(** Lagrange's formula at a point. *)
Lemma lagrange_formula (a : seq.seq F) (f : {poly F}) (x : F) :
  uniq a -> (size f <= size a)%nat ->
  \sum_(i <- iota 0 (size a))
     f.[seq.nth 0 a i] *
     (\prod_(j <- iota 0 (size a) | j != i) (x - seq.nth 0 a j)) /
     (\prod_(j <- iota 0 (size a) | j != i) (seq.nth 0 a i - seq.nth 0 a j))
  = f.[x].
Proof.
move=> uniq_a le_f; rewrite -[in RHS](interpolantE uniq_a le_f).
rewrite /interpolant horner_sum; apply: eq_bigr => i _.
rewrite hornerZ /basis_num horner_prod -/(basis_den a i).
rewrite mulrAC; congr (_ * _).
by apply: eq_bigr => j _; rewrite hornerXsubC.
Qed.

End Lagrange.

End Interpolation.

(** ** Integers modulo 257 as the field [F_257] *)

Module Field257.
Import GRing.Theory.

Lemma prime257 : prime 257.
Proof. by []. Qed.

Definition toF (z : Z) : 'F_257 := ((int_of_Z z)%:~R)%R.

Lemma int_of_Z_add a b : int_of_Z (a + b) = (int_of_Z a + int_of_Z b)%R.
Proof. exact/eqP/(ZintD (Zint_int_of_Z a) (Zint_int_of_Z b)). Qed.

Lemma int_of_Z_mul a b : int_of_Z (a * b) = (int_of_Z a * int_of_Z b)%R.
Proof. exact/eqP/(ZintM (Zint_int_of_Z a) (Zint_int_of_Z b)). Qed.

Lemma int_of_Z_sub a b : int_of_Z (a - b) = (int_of_Z a - int_of_Z b)%R.
Proof. exact/eqP/(ZintB (Zint_int_of_Z a) (Zint_int_of_Z b)). Qed.

Lemma toF_add a b : toF (a + b) = (toF a + toF b)%R.
Proof. by rewrite /toF int_of_Z_add rmorphD. Qed.

Lemma toF_mul a b : toF (a * b) = (toF a * toF b)%R.
Proof. by rewrite /toF int_of_Z_mul rmorphM. Qed.

Lemma toF_sub a b : toF (a - b) = (toF a - toF b)%R.
Proof. by rewrite /toF int_of_Z_sub rmorphB. Qed.

Lemma toF_0 : toF 0 = 0%R.
Proof. by []. Qed.

Lemma toF_1 : toF 1 = 1%R.
Proof. by rewrite /toF. Qed.

Lemma toF_nat (n : nat) : toF (Z.of_nat n) = (n%:R)%R.
Proof.
rewrite /toF; case: n => [|n] //.
by rewrite /= SuccNat2Pos.id_succ -pmulrn.
Qed.

Lemma toF_257 : toF 257 = 0%R.
Proof. by rewrite (toF_nat 257) (pchar_Fp_0 prime257). Qed.

Lemma toF_mod a : toF (a mod 257) = toF a.
Proof.
rewrite {2}(Z.div_mod a 257) // toF_add toF_mul toF_257.
by rewrite mul0r add0r.
Qed.

Lemma toF_nat_inj (m n : nat) :
  (m < 257)%nat -> (n < 257)%nat -> toF (Z.of_nat m) = toF (Z.of_nat n) -> m = n.
Proof.
move=> Hm Hn; rewrite !toF_nat; move/(congr1 (@nat_of_ord _)).
by rewrite !(val_Fp_nat prime257) !modn_small.
Qed.

Lemma toF_small_inj a b :
  0 <= a < 257 -> 0 <= b < 257 -> toF a = toF b -> a = b.
Proof.
move=> Ha Hb H.
have Ea : a = Z.of_nat (Z.to_nat a) by lia.
have Eb : b = Z.of_nat (Z.to_nat b) by lia.
rewrite Ea Eb; congr Z.of_nat.
by apply: toF_nat_inj; [apply/ltP; lia|apply/ltP; lia|rewrite -Ea -Eb].
Qed.

Lemma toF_eq0 a : toF a = 0%R -> a mod 257 = 0.
Proof.
rewrite -toF_mod -toF_0 => H.
by apply: toF_small_inj H; [apply: Z.mod_pos_bound|].
Qed.

Definition inverse_table_ok : bool :=
  forallb (fun d => (d * (d ^ 255 mod 257)) mod 257 =? 1)
    (map Z.of_nat (seq 1 256)).

Lemma inverse_table : inverse_table_ok = true.
Proof. by vm_compute. Qed.

Lemma pow_mod_inverse d :
  d mod 257 <> 0 -> (d * (d ^ 255 mod 257)) mod 257 = 1.
Proof.
move=> Hd.
rewrite (Zmult_mod d) Zmod_mod -(Z.mod_pow_l d).
have Hr := Z.mod_pos_bound d 257 erefl.
have := inverse_table; rewrite /inverse_table_ok forallb_forall => H.
apply/Z.eqb_eq/H/in_map_iff; exists (Z.to_nat (d mod 257)).
split; first lia.
apply/in_seq; lia.
Qed.

Lemma toF_inv d : toF d <> 0%R -> toF (d ^ 255 mod 257) = ((toF d)^-1)%R.
Proof.
move=> Hd.
have Hm : d mod 257 <> 0.
  by move=> H; apply: Hd; rewrite -toF_mod H.
have := pow_mod_inverse Hm; move/(congr1 toF).
rewrite toF_mod toF_mul toF_1 => H.
apply: (mulfI (x := toF d)); first exact/eqP.
by rewrite H divff //; apply/eqP.
Qed.

End Field257.

(** ** shamir_keys.py: splitting and recombining a key *)

Module ShamirFacts.
Import PyFacts Shamir.

(** *** [_lagrange_interpolate] without the index checks *)

Definition at_index (l : list Z) (i : Z) : Z := nth (Z.to_nat i) l 0.

Definition basis_step (p x : Z) (xs : list Z) (i : Z) (nd : Z * Z) (j : Z)
    : Z * Z :=
  if negb (i =? j) then
    (fst nd * (x - at_index xs j) mod p,
     snd nd * (at_index xs i - at_index xs j) mod p)
  else nd.

Definition basis (p x : Z) (xs ys : list Z) (i : Z) : Z * Z :=
  fold_left (basis_step p x xs i) (range (len xs)) (at_index ys i, 1).

Definition lagrange_step (p x : Z) (xs ys : list Z) (result i : Z) : Z :=
  (result + fst (basis p x xs ys i) * pow_mod (snd (basis p x xs ys i)) (p - 2) p)
    mod p.

Definition lagrange (p x : Z) (xs ys : list Z) : Z :=
  fold_left (lagrange_step p x xs ys) (range (len xs)) 0.

Lemma in_range (n i : Z) : In i (range n) <-> 0 <= i < n.
Proof.
  unfold range. rewrite in_map_iff. split.
  - intros (k & <- & Hk). apply in_seq in Hk. lia.
  - intros Hi. exists (Z.to_nat i). split; [lia|]. apply in_seq. lia.
Qed.

Lemma getitem_at_index (l : list Z) (i : Z) :
  0 <= i < len l -> getitem l i = Ok (at_index l i).
Proof.
  intros Hi. apply getitem_nth; [lia|]. unfold at_index.
  apply nth_error_nth'. unfold len in Hi. lia.
Qed.

Definition basis_mstep (p x : Z) (xs : list Z) (i : Z)
    (acc' : result (Z * Z)) (j : Z) : result (Z * Z) :=
  nd <- acc' ;;
  let '(num, den) := nd in
  if negb (i =? j) then
    xj <- getitem xs j ;;
    xi <- getitem xs i ;;
    Ok (num * (x - xj) mod p, den * (xi - xj) mod p)
  else Ok (num, den).

Lemma basis_mstep_ok (p x : Z) (xs : list Z) (i j : Z) (nd : Z * Z) :
  0 <= i < len xs -> 0 <= j < len xs ->
  basis_mstep p x xs i (Ok nd) j = Ok (basis_step p x xs i nd j).
Proof.
  intros Hi Hj. unfold basis_mstep, basis_step. destruct nd as [num den].
  cbn [bind fst snd]. destruct (negb (i =? j)); [|reflexivity].
  now rewrite (getitem_at_index Hj) (getitem_at_index Hi).
Qed.

Lemma basis_fold_ok (p x : Z) (xs : list Z) (i : Z) (l : list Z) :
  0 <= i < len xs ->
  (forall j, In j l -> 0 <= j < len xs) ->
  forall nd,
    fold_left (basis_mstep p x xs i) l (Ok nd)
    = Ok (fold_left (basis_step p x xs i) l nd).
Proof.
  intros Hi. induction l as [|j l IH]; intros Hl nd; [reflexivity|].
  cbn [fold_left].
  rewrite -> basis_mstep_ok by (try assumption; apply Hl; now left).
  apply IH. intros j' Hj'. apply Hl. now right.
Qed.

Definition lagrange_mstep (p x : Z) (xs ys : list Z) (acc : result Z) (i : Z)
    : result Z :=
  result <- acc ;;
  yi <- getitem ys i ;;
  nd <- fold_left (basis_mstep p x xs i) (range (len xs)) (Ok (yi, 1)) ;;
  let '(num, den) := nd in
  Ok ((result + num * pow_mod den (p - 2) p) mod p).

Lemma lagrange_mstep_ok (p x : Z) (xs ys : list Z) (acc i : Z) :
  len ys = len xs -> 0 <= i < len xs ->
  lagrange_mstep p x xs ys (Ok acc) i = Ok (lagrange_step p x xs ys acc i).
Proof.
  intros Hlen Hi. unfold lagrange_mstep, lagrange_step. cbn [bind].
  rewrite -> getitem_at_index by lia. cbn [bind].
  rewrite -> (basis_fold_ok p x Hi) by (intros j; apply in_range).
  cbn [bind]. fold (basis p x xs ys i).
  now destruct (basis p x xs ys i).
Qed.

Lemma lagrange_fold_ok (p x : Z) (xs ys l : list Z) :
  len ys = len xs ->
  (forall i, In i l -> 0 <= i < len xs) ->
  forall acc,
    fold_left (lagrange_mstep p x xs ys) l (Ok acc)
    = Ok (fold_left (lagrange_step p x xs ys) l acc).
Proof.
  intros Hlen. induction l as [|i l IH]; intros Hl acc; [reflexivity|].
  cbn [fold_left].
  rewrite -> lagrange_mstep_ok by (try assumption; apply Hl; now left).
  apply IH. intros j Hj. apply Hl. now right.
Qed.

Lemma lagrange_interpolate_ok (p x : Z) (xs ys : list Z) :
  len ys = len xs ->
  _lagrange_interpolate {| _prime := p |} x xs ys = Ok (lagrange p x xs ys).
Proof.
  intros Hlen.
  change (_lagrange_interpolate {| _prime := p |} x xs ys)
    with (fold_left (lagrange_mstep p x xs ys) (range (len xs)) (Ok 0)).
  apply lagrange_fold_ok; [exact Hlen|]. intros i. apply in_range.
Qed.

(** *** The interpolation in [F_257] *)

Section InField.
Import GRing.Theory Field257 Interpolation.

Lemma size_length {A : Type} (l : list A) : size l = length l.
Proof. by elim: l => //= _ l ->. Qed.

Lemma seq_iota (a n : nat) : seq a n = iota a n.
Proof. by elim: n a => //= n IH a; rewrite IH. Qed.

Lemma nth_map_toF (xs : list Z) (j : nat) :
  seq.nth 0%R (map toF xs) j = toF (nth j xs 0).
Proof. by elim: xs j => [|x xs IH] [|j] //=. Qed.

Lemma eqb_of_nat (i j : nat) : (Z.of_nat i =? Z.of_nat j) = (j == i).
Proof.
  case: eqP => [->|ne]; first exact: Z.eqb_refl.
  by apply/Z.eqb_neq => /Nat2Z.inj e; apply: ne.
Qed.

Lemma at_index_of_nat (l : list Z) (j : nat) :
  at_index l (Z.of_nat j) = nth j l 0.
Proof. by rewrite /at_index Nat2Z.id. Qed.

Lemma toF_basis_fold (x : Z) (xs : list Z) (i : nat) (l : list nat) :
  forall nd : Z * Z,
    let r := fold_left (basis_step 257 x xs (Z.of_nat i)) (map Z.of_nat l) nd in
    toF (fst r) =
      (toF (fst nd) *
       \prod_(j <- l | j != i) (toF x - seq.nth 0 (map toF xs) j))%R /\
    toF (snd r) =
      (toF (snd nd) *
       \prod_(j <- l | j != i)
          (seq.nth 0 (map toF xs) i - seq.nth 0 (map toF xs) j))%R.
Proof.
  elim: l => [|j l IH] nd /=; first by rewrite !big_nil !mulr1.
  have [Hn Hd] := IH (basis_step 257 x xs (Z.of_nat i) nd (Z.of_nat j)).
  rewrite {}Hn {}Hd !big_cons /basis_step eqb_of_nat.
  case: (j == i) => /=; first by [].
  rewrite !toF_mod !toF_mul !toF_sub !at_index_of_nat !nth_map_toF.
  by rewrite !mulrA.
Qed.

Lemma range_len (xs : list Z) :
  range (len xs) = map Z.of_nat (iota 0 (size (map toF xs))).
Proof.
  by rewrite /range /len Nat2Z.id seq_iota size_length length_map.
Qed.

Lemma toF_basis (x : Z) (xs ys : list Z) (i : nat) :
  toF (fst (basis 257 x xs ys (Z.of_nat i))) =
    (toF (nth i ys 0%Z) *
     \prod_(j <- iota 0 (size (map toF xs)) | j != i)
        (toF x - seq.nth 0 (map toF xs) j))%R /\
  toF (snd (basis 257 x xs ys (Z.of_nat i))) = basis_den (map toF xs) i.
Proof.
  rewrite /basis range_len.
  have [-> ->] := toF_basis_fold x xs i (iota 0 (size (map toF xs)))
                    (at_index ys (Z.of_nat i), 1).
  by rewrite /= at_index_of_nat toF_1 mul1r.
Qed.

Lemma toF_lagrange_fold (x : Z) (xs ys : list Z) (l : list nat) :
  uniq (map toF xs) ->
  (forall i, In i l -> (i < size (map toF xs))%nat) ->
  forall acc,
    toF (fold_left (lagrange_step 257 x xs ys) (map Z.of_nat l) acc) =
      (toF acc +
       \sum_(i <- l)
          toF (nth i ys 0%Z) *
          (\prod_(j <- iota 0 (size (map toF xs)) | j != i)
             (toF x - seq.nth 0 (map toF xs) j)) /
          (\prod_(j <- iota 0 (size (map toF xs)) | j != i)
             (seq.nth 0 (map toF xs) i - seq.nth 0 (map toF xs) j)))%R.
Proof.
  move=> Huniq. elim: l => [|i l IH] Hl acc /=.
    by rewrite big_nil addr0.
  rewrite (IH (fun j Hj => Hl j (or_intror Hj))).
  rewrite big_cons addrA; congr (_ + _)%R.
  have Hi : (i < size (map toF xs))%nat by apply: Hl; left.
  have [Hn Hd] := toF_basis x xs ys i.
  rewrite /lagrange_step toF_mod toF_add toF_mul Hn /pow_mod.
  change (257 - 2) with 255.
  rewrite toF_inv Hd //.
  exact/eqP/basis_den_neq0.
Qed.

(** If the values [ys] are those of a polynomial with at most [len(xs)]
    coefficients at nodes [xs] that are distinct modulo 257, [lagrange]
    returns the value of the polynomial at [x]. *)
Lemma toF_lagrange (x : Z) (xs ys : list Z) (f : {poly 'F_257}) :
  uniq (map toF xs) ->
  (size f <= size (map toF xs))%nat ->
  (forall i, (i < size (map toF xs))%nat ->
     toF (nth i ys 0%Z) = f.[toF (nth i xs 0%Z)]%R) ->
  toF (lagrange 257 x xs ys) = f.[toF x]%R.
Proof.
  move=> Huniq Hsize Hys.
  have Hin : forall i, In i (iota 0 (size (map toF xs))) ->
                       (i < size (map toF xs))%nat.
    by move=> i; rewrite -seq_iota => /in_seq [_ /ltP].
  rewrite /lagrange range_len (toF_lagrange_fold x ys Huniq Hin).
  rewrite toF_0 add0r -(lagrange_formula (toF x) Huniq Hsize).
  rewrite [LHS]big_seq [RHS]big_seq; apply: eq_bigr => i.
  rewrite mem_iota /= add0n => Hi.
  by rewrite Hys // nth_map_toF.
Qed.

Lemma toF_pow (x : Z) (n : nat) : toF (x ^ Z.of_nat n) = (toF x ^+ n)%R.
Proof.
  elim: n => [|n IH]; first by rewrite expr0 -toF_1.
  rewrite Nat2Z.inj_succ.
  rewrite -> Z.pow_succ_r by apply Nat2Z.is_nonneg.
  by rewrite toF_mul IH exprS.
Qed.

Lemma toF_eval_fold (x : Z) (coeffs : list Z) :
  forall (s : nat) (acc : Z),
    toF (fold_left (fun result '(i, c) => result + c * x ^ i)
           (List.combine (map Z.of_nat (seq s (length coeffs))) coeffs) acc) =
      (toF acc + toF x ^+ s * (Poly (map toF coeffs)).[toF x])%R.
Proof.
  elim: coeffs => [|c coeffs IH] s acc /=.
    by rewrite horner0 mulr0 addr0.
  rewrite IH toF_add toF_mul toF_pow horner_cons -addrA; congr (_ + _)%R.
  rewrite mulrDr addrC exprSr [(_ * toF x)%R in RHS]mulrC mulrA.
  by congr (_ + _)%R; rewrite mulrC.
Qed.

(** [_eval_poly] is the value of the polynomial with these coefficients. *)
Lemma toF_eval_poly (coeffs : list Z) (x : Z) :
  toF (_eval_poly coeffs x) = (Poly (map toF coeffs)).[toF x]%R.
Proof.
  rewrite /_eval_poly /enumerate /range /len Nat2Z.id.
  by rewrite toF_eval_fold toF_0 add0r expr0 mul1r.
Qed.

Lemma mem_In (T : eqType) (a : T) (l : list T) : a \in l -> In a l.
Proof.
  elim: l => [|x l IH] //; rewrite seq.in_cons => /orP [/eqP ->|/IH H].
  - by left.
  - by right.
Qed.

(** Share indices between 1 and 257 are distinct modulo 257. *)
Lemma toF_index_inj (x y : Z) :
  1 <= x <= 257 -> 1 <= y <= 257 -> toF x = toF y -> x = y.
Proof.
  move=> Hx Hy; rewrite -(toF_mod x) -(toF_mod y) => H.
  have Hm : x mod 257 = y mod 257.
    by apply: toF_small_inj H; apply: Z.mod_pos_bound.
  move: Hm; Z.div_mod_to_equations; lia.
Qed.

Lemma uniq_toF (xs : list Z) :
  NoDup xs -> (forall x, In x xs -> 1 <= x <= 257) -> uniq (map toF xs).
Proof.
  elim: xs => [|x xs IH] // Hnd Hr.
  have [Hx Hxs] := proj1 (NoDup_cons_iff x xs) Hnd.
  have Hu : uniq (map toF xs) by apply: IH => // y Hy; apply: Hr; right.
  rewrite /= Hu andbT.
  apply/negP => /mem_In /in_map_iff [y [Hy Hin]].
  apply: Hx; rewrite -(toF_index_inj _ _ Hy) //; apply: Hr; [by right|by left].
Qed.

Lemma lagrange_range (x : Z) (xs ys : list Z) :
  0 <= lagrange 257 x xs ys < 257.
Proof.
  assert (H : forall l acc, 0 <= acc < 257 ->
            0 <= fold_left (lagrange_step 257 x xs ys) l acc < 257).
  { induction l as [|i l IH]; intros acc Hacc; [exact Hacc|].
    apply IH. unfold lagrange_step. apply Z.mod_pos_bound. lia. }
  apply H. lia.
Qed.

End InField.

(** *** What [split] returns *)

Section WithExternals.
Context {L : Externals}.

Definition seed_of (key : bytes) : bytes :=
  sha512_digest (key ++ encode_utf8 "shamir-coefficients").

Definition fingerprint_of (key : bytes) : string :=
  substring 0 16 (sha256_hexdigest key).

(** The value stored in share [i] (counted from 0) for the key byte
    [byte_val] at [byte_idx]. *)
Definition share_value (key : bytes) (threshold i byte_idx byte_val : Z) : Z :=
  _eval_poly
    (coeffs_of default_manager (seed_of key) threshold byte_idx byte_val)
    (i + 1) mod 257.

Definition share_of (key : bytes) (threshold i : Z) : KeyShare :=
  {| index := i + 1;
     data :=
       concat
         (map (fun '(byte_idx, byte_val) =>
                 to_bytes_digits 2
                   (share_value key threshold i byte_idx
                      (int_of_byte byte_val)))
              (enumerate key));
     fingerprint := fingerprint_of key |}.

Definition shares_of (key : bytes) (threshold num_shares : Z)
    : list KeyShare :=
  map (share_of key threshold) (range num_shares).

Lemma mapM_ok {A B : Type} (f : A -> result B) (g : A -> B) (l : list A) :
  (forall a, In a l -> f a = Ok (g a)) -> mapM f l = Ok (map g l).
Proof.
  induction l as [|a l IH]; intros H; [reflexivity|].
  cbn [mapM map]. rewrite -> H by now left. cbn [bind].
  rewrite -> IH by (intros b Hb; apply H; now right). reflexivity.
Qed.

Lemma share_value_range key threshold i byte_idx byte_val :
  0 <= share_value key threshold i byte_idx byte_val < 257.
Proof. unfold share_value. apply Z.mod_pos_bound. lia. Qed.

Lemma split_ok (key : bytes) (threshold num_shares : Z) :
  len key = 32 -> 2 <= threshold <= num_shares ->
  split default_manager key threshold num_shares
    = Ok (key, shares_of key threshold num_shares).
Proof.
  intros HK HT. unfold split. rewrite HK. cbn [negb Z.eqb Pos.eqb].
  destruct (Z.gtb_spec threshold num_shares); [lia|].
  destruct (Z.ltb_spec threshold 2); [lia|].
  rewrite -> (@mapM_ok _ _ _ (share_of key threshold)); [reflexivity|].
  intros i _.
  rewrite -> (@mapM_ok _ _ _
    (fun '(byte_idx, byte_val) =>
       to_bytes_digits 2
         (share_value key threshold i byte_idx (int_of_byte byte_val))));
    [reflexivity|].
  intros [byte_idx byte_val] _.
  apply to_bytes_big_ok.
  assert (Hrange := share_value_range key threshold i byte_idx
                      (int_of_byte byte_val)).
  change (256 ^ Z.of_nat 2) with 65536. lia.
Qed.

(** *** Reading a share back *)

Lemma slice_concat_pairs (chunks : list bytes) :
  (forall c, In c chunks -> length c = 2%nat) ->
  forall (k : nat) (c : bytes),
    nth_error chunks k = Some c ->
    slice (concat chunks) (Z.of_nat k * 2) (Z.of_nat k * 2 + 2) = c.
Proof.
  induction chunks as [|c0 chunks IH]; intros Hlen k c Hk.
  - destruct k; discriminate.
  - unfold slice.
    replace (Z.to_nat (Z.of_nat k * 2 + 2 - Z.of_nat k * 2)) with 2%nat by lia.
    assert (H0 : length c0 = 2%nat) by (apply Hlen; now left).
    destruct k as [|k].
    + injection Hk as <-. cbn [Z.of_nat Z.mul Z.to_nat skipn concat].
      rewrite firstn_app.
      replace (2 - length c0)%coq_nat with 0%nat by lia.
      rewrite firstn_O app_nil_r. rewrite <- H0. apply firstn_all.
    + cbn [concat nth_error] in *.
      replace (Z.to_nat (Z.of_nat (S k) * 2))
        with (Nat.add (length c0) (Z.to_nat (Z.of_nat k * 2))) by lia.
      rewrite skipn_app. rewrite -> skipn_all2 by lia.
      replace (Nat.sub (Nat.add (length c0) (Z.to_nat (Z.of_nat k * 2)))
                 (length c0))
        with (Z.to_nat (Z.of_nat k * 2)) by lia.
      cbn [app].
      specialize (IH (fun c' Hc' => Hlen c' (or_intror Hc')) k c Hk).
      unfold slice in IH.
      replace (Z.to_nat (Z.of_nat k * 2 + 2 - Z.of_nat k * 2)) with 2%nat
        in IH by lia.
      exact IH.
Qed.

Lemma nth_error_enumerate_from {A : Type} (l : list A) :
  forall (s k : nat) (a : A),
    nth_error l k = Some a ->
    nth_error (List.combine (map Z.of_nat (seq s (length l))) l) k
      = Some (Z.of_nat (s + k)%coq_nat, a).
Proof.
  induction l as [|x l IH]; intros s k a Hk; [destruct k; discriminate|].
  destruct k as [|k]; cbn [length seq map List.combine nth_error] in *.
  - injection Hk as <-. now rewrite Nat.add_0_r.
  - rewrite (IH (S s) k a Hk). do 3 f_equal. lia.
Qed.

Lemma nth_error_enumerate {A : Type} (l : list A) (k : nat) (a : A) :
  nth_error l k = Some a ->
  nth_error (enumerate l) k = Some (Z.of_nat k, a).
Proof.
  intros Hk. unfold enumerate, range, len. rewrite Nat2Z.id.
  now rewrite (nth_error_enumerate_from 0 Hk).
Qed.

Lemma share_read (key : bytes) (threshold i : Z) (k : nat) (b : byte) :
  nth_error key k = Some b ->
  from_bytes_big
    (slice (data (share_of key threshold i)) (Z.of_nat k * 2)
       (Z.of_nat k * 2 + 2))
  = share_value key threshold i (Z.of_nat k) (int_of_byte b).
Proof.
  intros Hk. cbn [data share_of].
  set (chunks := map _ (enumerate key)).
  assert (Hlen : forall c, In c chunks -> length c = 2%nat).
  { intros c Hc. apply in_map_iff in Hc. destruct Hc as ([idx x] & <- & _).
    apply length_to_bytes_digits. }
  assert (Hnth : nth_error chunks k =
            Some (to_bytes_digits 2
                    (share_value key threshold i (Z.of_nat k)
                       (int_of_byte b)))).
  { subst chunks. rewrite nth_error_map.
    now rewrite (nth_error_enumerate Hk). }
  rewrite (slice_concat_pairs Hlen Hnth).
  apply from_bytes_to_bytes_digits.
  assert (Hr := share_value_range key threshold i (Z.of_nat k)
                  (int_of_byte b)).
  change (256 ^ Z.of_nat 2) with 65536. lia.
Qed.

(** *** Recombining shares of one split *)

Lemma in_shares_of (key : bytes) (threshold num_shares : Z) (s : KeyShare) :
  In s (shares_of key threshold num_shares) ->
  exists i, 0 <= i < num_shares /\ s = share_of key threshold i.
Proof.
  unfold shares_of. rewrite in_map_iff. intros (i & <- & Hi).
  apply in_range in Hi. now exists i.
Qed.

Lemma NoDup_index (key : bytes) (threshold num_shares : Z)
    (S : list KeyShare) :
  NoDup S -> incl S (shares_of key threshold num_shares) ->
  NoDup (map index S).
Proof.
  induction 1 as [|s S Hs Hnd IH]; intros Hincl; [constructor|].
  cbn [map]. constructor.
  - intros Hin. apply in_map_iff in Hin. destruct Hin as (s' & He & Hs').
    destruct (in_shares_of (Hincl s (or_introl erefl))) as (i & _ & ->).
    destruct (in_shares_of (Hincl s' (or_intror Hs'))) as (i' & _ & ->).
    cbn [index share_of] in He. assert (i' = i) by lia. now subst i'.
  - apply IH. intros s' Hs'. apply Hincl. now right.
Qed.

Lemma nth_map_lt {A : Type} (g : A -> Z) (l : list A) (i : nat) (d : A) :
  (i < length l)%coq_nat -> nth i (map g l) 0 = g (nth i l d).
Proof.
  intros Hi. rewrite <- (map_nth g l d).
  apply nth_indep. now rewrite length_map.
Qed.

(** Interpolating the values that [threshold] or more distinct shares of
    one split hold for a key byte gives that byte. *)
Lemma interpolate_byte (key : bytes) (threshold num_shares : Z)
    (S : list KeyShare) (k : nat) (b : byte) :
  2 <= threshold -> num_shares <= 257 ->
  NoDup S -> incl S (shares_of key threshold num_shares) ->
  threshold <= len S ->
  nth_error key k = Some b ->
  lagrange 257 0 (map index S)
    (map (fun s =>
            from_bytes_big
              (slice (data s) (Z.of_nat k * 2) (Z.of_nat k * 2 + 2)))
         S)
  = int_of_byte b.
Proof.
  intros HT HN Hnd Hincl Hlen Hk.
  set (xs := map index S). set (ys := map _ S).
  set (coeffs := coeffs_of default_manager (seed_of key) threshold
                   (Z.of_nat k) (int_of_byte b)).
  set (f := Poly (map Field257.toF coeffs)).
  assert (Huniq : uniq (map Field257.toF xs)).
  { apply uniq_toF; [now apply (NoDup_index (key := key)
                                  (threshold := threshold)
                                  (num_shares := num_shares))|].
    intros x Hx. apply in_map_iff in Hx. destruct Hx as (s & <- & Hs).
    destruct (in_shares_of (Hincl s Hs)) as (i & Hi & ->).
    cbn [index share_of]. lia. }
  assert (Hsize : (size f <= size (map Field257.toF xs))%nat).
  { apply (leq_trans (size_Poly _)).
    rewrite !size_length. subst xs coeffs. unfold coeffs_of, range.
    rewrite !List.length_map. cbn [Datatypes.length].
    rewrite !List.length_map List.length_seq.
    apply/leP. unfold len in Hlen. lia. }
  assert (Hys : forall i, (i < size (map Field257.toF xs))%nat ->
            Field257.toF (nth i ys 0%Z) =
            (f.[Field257.toF (nth i xs 0%Z)])%R).
  { intros i Hi. rewrite size_length in Hi. subst xs. rewrite !length_map in Hi.
    move/ltP: Hi => Hi.
    set (d := share_of key threshold 0).
    subst ys. rewrite (nth_map_lt _ d Hi) (nth_map_lt _ d Hi).
    destruct (in_shares_of (Hincl _ (nth_In S d Hi))) as (j & _ & ->).
    rewrite (share_read threshold j Hk). cbn [index share_of].
    unfold share_value. rewrite Field257.toF_mod.
    apply toF_eval_poly. }
  apply Field257.toF_small_inj;
    [apply lagrange_range|pose proof (int_of_byte_range b); lia|].
  rewrite (toF_lagrange 0 Huniq Hsize Hys).
  subst f coeffs. unfold coeffs_of. cbn [map].
  now rewrite horner_cons Field257.toF_0 GRing.mulr0 GRing.add0r.
Qed.

Lemma nodup_constant (c : string) (l : list string) :
  (forall a, In a l -> a = c) -> (length (nodup string_dec l) <= 1)%coq_nat.
Proof.
  induction l as [|a l IH]; intros H; cbn [nodup length]; [lia|].
  assert (IH' := IH (fun b Hb => H b (or_intror Hb))).
  destruct (in_dec string_dec a l) as [Hin|Hnin]; [exact IH'|].
  destruct l as [|b l]; [cbn; lia|]. exfalso. apply Hnin. left.
  rewrite (H a (or_introl erefl)). apply H. right. now left.
Qed.

Lemma map_nth_range {A : Type} (l : list A) (d : A) :
  map (fun i => nth (Z.to_nat i) l d) (range (len l)) = l.
Proof.
  unfold range, len. rewrite Nat2Z.id map_map.
  rewrite <- (map_ext (fun k => nth k l d)) by (intros k; now rewrite Nat2Z.id).
  induction l as [|a l IH]; [reflexivity|].
  cbn [length seq map nth]. f_equal.
  rewrite <- seq_shift. rewrite map_map. exact IH.
Qed.

(** The fingerprint gate of [combine] lets the shares of one split pass. *)
Lemma fingerprints_agree (key : bytes) (threshold num_shares : Z)
    (S : list KeyShare) :
  incl S (shares_of key threshold num_shares) ->
  (len (nodup string_dec (map fingerprint S)) >? 1) = false.
Proof.
  intros Hincl. rewrite Z.gtb_ltb. apply Z.ltb_ge.
  assert (H := @nodup_constant (fingerprint_of key) (map fingerprint S)).
  unfold len. apply inj_le with (m := 1%nat). apply H.
  intros a Ha. apply in_map_iff in Ha. destruct Ha as (s & <- & Hs).
  now destruct (in_shares_of (Hincl s Hs)) as (i & _ & ->).
Qed.

(** [combine] on [threshold] or more distinct shares of one split of a
    32-byte key, cut into at most 257 shares, returns the key. *)
Lemma combine_subset (key : bytes) (threshold num_shares : Z)
    (S : list KeyShare) :
  len key = 32 -> 2 <= threshold -> num_shares <= 257 ->
  NoDup S -> incl S (shares_of key threshold num_shares) ->
  threshold <= len S ->
  combine default_manager S 32 = Ok key.
Proof.
  intros HK HT HN Hnd Hincl Hlen. unfold combine.
  destruct (Z.ltb_spec (len S) 2) as [|_]; [lia|].
  rewrite (fingerprints_agree Hincl).
  rewrite -> (@mapM_ok _ _ _ (fun i => nth (Z.to_nat i) key x00)).
  - rewrite <- HK at 1. rewrite map_nth_range. cbn [bind].
    destruct S as [|s0 S']; [unfold len in Hlen; cbn in Hlen; lia|].
    change (getitem (s0 :: S') 0) with (Ok s0). cbn [bind].
    destruct (in_shares_of (Hincl s0 (or_introl erefl))) as (i & _ & ->).
    cbn [fingerprint share_of]. unfold fingerprint_of.
    now rewrite String.eqb_refl.
  - intros byte_idx Hidx. apply in_range in Hidx.
    assert (Hb : nth_error key (Z.to_nat byte_idx)
                 = Some (nth (Z.to_nat byte_idx) key x00)).
    { apply nth_error_nth'. unfold len in HK. lia. }
    cbv zeta. change default_manager with {| _prime := 257 |}.
    rewrite -> lagrange_interpolate_ok by (unfold len; now rewrite !length_map).
    cbn [bind].
    set (k := Z.to_nat byte_idx) in *.
    replace byte_idx with (Z.of_nat k) by lia.
    rewrite (interpolate_byte HT HN Hnd Hincl Hlen Hb).
    rewrite -> Z.mod_small by apply int_of_byte_range.
    now rewrite byte_of_int_of_byte.
Qed.

(** *** The checks of [split] and [combine] *)

(** The key bytes [combine] assembles by interpolation, before it checks
    their fingerprint. *)
Definition assembled (shares : list KeyShare) (key_length : Z) : bytes :=
  map (fun byte_idx =>
         byte_of_int
           (lagrange 257 0 (map index shares)
              (map (fun s =>
                      from_bytes_big
                        (slice (data s) (byte_idx * 2) (byte_idx * 2 + 2)))
                   shares)
            mod 256))
      (range key_length).

Lemma nodup_two (a b : string) (l : list string) :
  In a l -> In b l -> a <> b -> (2 <= length (nodup string_dec l))%coq_nat.
Proof.
  intros Ha Hb Hab.
  apply (@NoDup_incl_length _ [a; b] (nodup string_dec l)).
  - constructor; [intros [H|[]]; now apply Hab|].
    constructor; [intros []|constructor].
  - intros c [<-|[<-|[]]]; now apply nodup_In.
Qed.

(** Past the two gates, [combine] interpolates without an error and then
    compares the fingerprint of the assembled bytes with that of the
    first share. *)
Lemma combine_checked (shares : list KeyShare) (key_length : Z)
    (s0 : KeyShare) :
  2 <= len shares ->
  (forall s s', In s shares -> In s' shares ->
                fingerprint s = fingerprint s') ->
  getitem shares 0 = Ok s0 ->
  combine default_manager shares key_length =
    if String.eqb (fingerprint_of (assembled shares key_length))
         (fingerprint s0)
    then Ok (assembled shares key_length)
    else Raise (Exn ValueError "Reconstruction failed — fingerprint mismatch").
Proof.
  intros Hlen Hfp Hs0. unfold combine.
  destruct (Z.ltb_spec (len shares) 2) as [|_]; [lia|].
  assert (Hgate : (len (nodup string_dec (map fingerprint shares)) >? 1)
                  = false).
  { rewrite Z.gtb_ltb. apply Z.ltb_ge. unfold len.
    apply inj_le with (m := 1%nat).
    apply (@nodup_constant (fingerprint s0)).
    intros a Ha. apply in_map_iff in Ha. destruct Ha as (s & <- & Hs).
    apply Hfp; [exact Hs|].
    destruct shares as [|s1 shares']; [discriminate Hs0|].
    injection Hs0 as <-. now left. }
  rewrite Hgate.
  rewrite -> (@mapM_ok _ _ _
    (fun byte_idx =>
       byte_of_int
         (lagrange 257 0 (map index shares)
            (map (fun s =>
                    from_bytes_big
                      (slice (data s) (byte_idx * 2) (byte_idx * 2 + 2)))
                 shares)
          mod 256))).
  - cbn [bind]. rewrite Hs0. cbn [bind]. fold (assembled shares key_length).
    unfold fingerprint_of.
    now destruct (String.eqb _ _).
  - intros byte_idx _. cbv zeta. change default_manager with {| _prime := 257 |}.
    rewrite -> lagrange_interpolate_ok by (unfold len; now rewrite !length_map).
    reflexivity.
Qed.

Lemma nth_error_range (n : Z) (k : nat) :
  Z.of_nat k < n -> nth_error (range n) k = Some (Z.of_nat k).
Proof.
  intros Hk. unfold range. rewrite nth_error_map.
  rewrite -> (nth_error_nth' _ 0%nat) by (rewrite length_seq; lia).
  rewrite -> seq_nth by lia. reflexivity.
Qed.

Lemma nth_error_shares_of (key : bytes) (threshold num_shares : Z) (k : nat) :
  Z.of_nat k < num_shares ->
  nth_error (shares_of key threshold num_shares) k
  = Some (share_of key threshold (Z.of_nat k)).
Proof.
  intros Hk. unfold shares_of. rewrite nth_error_map.
  now rewrite (nth_error_range Hk).
Qed.

(** Two nodes that agree modulo 257 make both denominators 0, and
    [pow(0, 255, 257)] is 0: the interpolation returns 0 whatever the
    values are. *)
Lemma lagrange_colliding (x x' y y' : Z) :
  (x - x') mod 257 = 0 -> lagrange 257 0 [x; x'] [y; y'] = 0.
Proof.
  intros Hx.
  assert (Hx' : (x' - x) mod 257 = 0).
  { replace (x' - x) with (- (x - x')) by lia.
    apply Z.mod_opp_l_z; [lia|exact Hx]. }
  unfold lagrange, lagrange_step, basis, basis_step, at_index.
  change (range (len [x; x'])) with [0; 1].
  cbn [fold_left Z.eqb negb fst snd Z.to_nat nth Pos.to_nat Pos.iter_op
       Nat.add].
  rewrite !Z.mul_1_l Hx Hx'.
  change (pow_mod 0 (257 - 2) 257) with 0.
  now rewrite !Z.mul_0_r.
Qed.

Lemma assembled_colliding (s s' : KeyShare) (key_length : Z) :
  (index s - index s') mod 257 = 0 ->
  assembled [s; s'] key_length = map (fun _ => x00) (range key_length).
Proof.
  intros Hx. unfold assembled. apply map_ext. intros byte_idx.
  cbn [map]. now rewrite (lagrange_colliding _ _ Hx).
Qed.

(** Two shares of one split whose indices agree modulo 257 assemble to
    zero bytes; unless these happen to have the key's fingerprint,
    [combine] raises. *)
Lemma combine_colliding (key : bytes) (threshold i j key_length : Z) :
  (i - j) mod 257 = 0 ->
  fingerprint_of (map (fun _ => x00) (range key_length))
    <> fingerprint_of key ->
  combine default_manager
    [share_of key threshold i; share_of key threshold j] key_length
  = Raise (Exn ValueError "Reconstruction failed — fingerprint mismatch").
Proof.
  intros Hij Hfp.
  rewrite -> (@combine_checked _ key_length (share_of key threshold i));
    [|unfold len; cbn [length]; lia
     |intros a b [<-|[<-|[]]] [<-|[<-|[]]]; reflexivity
     |reflexivity].
  rewrite -> assembled_colliding
    by (cbn [index share_of]; now replace (i + 1 - (j + 1)) with (i - j) by lia).
  cbn [fingerprint share_of].
  destruct (String.eqb_spec
              (fingerprint_of (map (fun _ => x00) (range key_length)))
              (fingerprint_of key)); [contradiction|reflexivity].
Qed.

(** C8. [split] raises exactly when the key is not 32 bytes long, the
    threshold is below 2 or the threshold is above the number of shares.
    [combine] raises on fewer than 2 shares; on shares that carry two
    different fingerprints it raises whatever the manager's prime and the
    shares' indices and data are, so before any interpolation; on two or
    more shares of one fingerprint it interpolates and then raises exactly
    when the fingerprint of the assembled bytes is not that of the first
    share, returning the assembled bytes otherwise. *)
Theorem sharer_error_contract :
  (forall (K : bytes) (T N : Z),
     raises (split default_manager K T N) <->
     len K <> 32 \/ T < 2 \/ T > N) /\
  (forall (self : ShamirKeyManager) (S : list KeyShare) (n : Z),
     len S < 2 ->
     combine self S n = Raise (Exn ValueError "Need at least 2 shares")) /\
  (forall (self : ShamirKeyManager) (S : list KeyShare) (n : Z)
          (s s' : KeyShare),
     2 <= len S -> In s S -> In s' S -> fingerprint s <> fingerprint s' ->
     combine self S n =
       Raise (Exn ValueError "Shares are from different keys")) /\
  (forall (S : list KeyShare) (n : Z),
     2 <= len S ->
     (forall s s', In s S -> In s' S -> fingerprint s = fingerprint s') ->
     exists s0,
       getitem S 0 = Ok s0 /\
       (fingerprint_of (assembled S n) = fingerprint s0 /\
        combine default_manager S n = Ok (assembled S n)
        \/
        fingerprint_of (assembled S n) <> fingerprint s0 /\
        combine default_manager S n =
          Raise (Exn ValueError
                   "Reconstruction failed — fingerprint mismatch"))).
Proof.
  split; [|split; [|split]].
  - intros K T N. split.
    + intros Hr.
      destruct (Z.eq_dec (len K) 32) as [HK|]; [|now left]. right.
      destruct (Z.lt_ge_cases T 2); [now left|]. right.
      destruct (Z.le_gt_cases T N); [|lia].
      rewrite -> split_ok in Hr by lia. destruct Hr.
    + intros H. unfold split.
      destruct (Z.eqb_spec (len K) 32) as [HK|HK]; cbn [negb]; [|exact I].
      destruct (Z.gtb_spec T N); [exact I|].
      destruct (Z.ltb_spec T 2); [exact I|]. lia.
  - intros self S n H. unfold combine.
    now destruct (Z.ltb_spec (len S) 2); [|lia].
  - intros self S n s s' Hlen Hs Hs' Hne. unfold combine.
    destruct (Z.ltb_spec (len S) 2) as [|_]; [lia|].
    assert (H2 := @nodup_two (fingerprint s) (fingerprint s')
                    (map fingerprint S) (in_map _ _ _ Hs) (in_map _ _ _ Hs')
                    Hne).
    destruct (Z.gtb_spec (len (nodup string_dec (map fingerprint S))) 1)
      as [|Hle]; [reflexivity|].
    unfold len in Hle. lia.
  - intros S n Hlen Hfp.
    destruct S as [|s0 S']; [unfold len in Hlen; cbn in Hlen; lia|].
    exists s0. split; [reflexivity|].
    rewrite (@combine_checked (s0 :: S') n s0 Hlen Hfp erefl).
    destruct (String.eqb_spec (fingerprint_of (assembled (s0 :: S') n))
                (fingerprint s0)); [now left|now right].
Qed.

(** C2 (amended). For a 32-byte key K, a threshold T >= 2 and a share
    count N with T <= N <= 257, [split] returns K and N shares, and
    [combine] returns K on every duplicate-free list of T or more of
    these shares, in any order. *)
Theorem combine_split_subset (K : bytes) (T N : Z) :
  len K = 32 -> 2 <= T -> T <= N -> N <= 257 ->
  exists shares,
    split default_manager K T N = Ok (K, shares) /\
    len shares = N /\
    forall S, NoDup S -> incl S shares -> T <= len S ->
              combine default_manager S 32 = Ok K.
Proof.
  intros HK HT HTN HN. exists (shares_of K T N). split; [|split].
  - apply split_ok; [exact HK|lia].
  - unfold shares_of, range, len. rewrite !length_map length_seq. lia.
  - intros S Hnd Hincl Hlen. now apply (@combine_subset K T N).
Qed.

End WithExternals.

Import Sample.

Lemma sharer_error_contract_witness :
  raises (split default_manager sample_key 6 5) /\
  combine default_manager [share_of sample_key 2 0] 32
    = Raise (Exn ValueError "Need at least 2 shares") /\
  combine default_manager
      [share_of sample_key 2 0; share_of (rev sample_key) 2 1] 32
    = Raise (Exn ValueError "Shares are from different keys").
Proof.
  destruct (@sharer_error_contract Sample.externals)
    as (Hsplit & Hfew & Hgate & _).
  split; [|split].
  - apply Hsplit. right. right. lia.
  - apply Hfew. unfold len. cbn [length]. lia.
  - apply (Hgate default_manager _ 32 (share_of sample_key 2 0)
             (share_of (rev sample_key) 2 1)).
    + unfold len. cbn [length]. lia.
    + now left.
    + right. now left.
    + cbn [fingerprint share_of]. vm_compute. discriminate.
Defined.

Lemma combine_split_subset_witness :
  exists shares,
    split default_manager sample_key 3 5 = Ok (sample_key, shares) /\
    len shares = 5 /\
    forall S, NoDup S -> incl S shares -> 3 <= len S ->
              combine default_manager S 32 = Ok sample_key.
Proof.
  apply (@combine_split_subset Sample.externals sample_key 3 5);
    [vm_compute; reflexivity|lia|lia|lia].
Defined.

(** C2 as the spec words it, for every N >= T, fails at N = 258: the
    shares with indices 1 and 258 are two different shares of one split
    with threshold 2, their indices agree modulo 257, every interpolated
    byte is 0 and [combine] raises. *)
Lemma combine_split_counterexample :
  exists shares s s',
    split default_manager sample_key 2 258 = Ok (sample_key, shares) /\
    nth_error shares 0 = Some s /\ nth_error shares 257 = Some s' /\
    index s = 1 /\ index s' = 258 /\
    combine default_manager [s; s'] 32 =
      Raise (Exn ValueError "Reconstruction failed — fingerprint mismatch").
Proof.
  exists (shares_of sample_key 2 258), (share_of sample_key 2 0),
         (share_of sample_key 2 257).
  split; [apply split_ok; [reflexivity|lia]|].
  split; [apply (@nth_error_shares_of _ sample_key 2 258 0); lia|].
  split; [apply (@nth_error_shares_of _ sample_key 2 258 257); lia|].
  split; [reflexivity|]. split; [reflexivity|].
  apply combine_colliding; [reflexivity|].
  vm_compute. discriminate.
Qed.

End ShamirFacts.

(** ** integrity.py: edge cases of the Merkle tree *)

Module IntegrityLaws.
Import Integrity PyFacts IntegrityFacts.

Section WithExternals.
Context {L : Externals}.


(** X2.  From two fragments on, the proof that [prove_fragment] returns for
    an index in range names that index and the hash of that fragment, its
    root is the root [compute_root] commits to, and [verify_proof] accepts
    it. *)
Theorem proof_checks_against_committed_root (soul : soul_arg) (i : Z) :
  1 < len (leaves_of soul) ->
  0 <= i < len (leaves_of soul) ->
  exists proof leaf,
    prove_fragment soul i = Ok proof /\
    getitem (leaves_of soul) i = Ok leaf /\
    leaf_index proof = i /\
    leaf_hash proof = _leaf_hash leaf /\
    compute_root soul = Ok (root proof) /\
    verify_proof proof = true.
Proof.
  intros Hlen Hi.
  destruct (prove_fragment_path Hi) as (leaf & sibs & Hleaf & Hb & Hp).
  eexists. exists leaf. split; [exact Hp|].
  split; [exact (getitem_nth (proj1 Hi) Hleaf)|].
  cbn [leaf_index leaf_hash root]. do 2 (split; [reflexivity|]). split.
  - rewrite -> build_tree_pad in Hb by now rewrite len_map.
    unfold compute_root.
    destruct (leaves_of soul); [discriminate Hleaf || (cbn in Hlen; lia)|].
    exact Hb.
  - unfold verify_proof. cbn [siblings leaf_hash root].
    apply String.eqb_refl.
Qed.

(** X3.  A soul with an odd number (three or more) of fragments and the
    soul with its last fragment repeated once more have the same root: the
    padding of an odd level is not told apart from a real duplicate. *)
Theorem compute_root_duplicated_last (leaves : list json) (x : json) :
  leaves <> [] -> len leaves mod 2 = 0 ->
  compute_root (OfLeaves (leaves ++ [x; x]))
  = compute_root (OfLeaves (leaves ++ [x])).
Proof.
  intros Hne Heven. unfold compute_root. cbn [leaves_of].
  assert (Hlen : 2 <= len leaves).
  { destruct leaves as [|a [|b l]]; [contradiction|discriminate Heven|].
    unfold len. cbn [length]. lia. }
  destruct (leaves ++ [x; x]) eqn:E1; [now destruct leaves|]. rewrite <- E1.
  destruct (leaves ++ [x]) eqn:E2; [now destruct leaves|]. rewrite <- E2.
  clear E1 E2.
  rewrite <- (@build_tree_pad _ (map _leaf_hash (leaves ++ [x])))
    by (rewrite len_map len_app; unfold len at 2; cbn [length]; lia).
  f_equal. unfold pad.
  replace (len (map _leaf_hash (leaves ++ [x])) mod 2 =? 1) with true.
  - rewrite !map_app. cbn [map]. rewrite last_last.
    rewrite <- app_assoc. reflexivity.
  - symmetry. apply Z.eqb_eq. rewrite len_map len_app.
    unfold len at 2. cbn [length].
    rewrite -> Z.add_mod by lia. rewrite Heven. reflexivity.
Qed.

(** X4.  [compute_root] never raises: the recursion of [_build_tree] ends
    on every non-empty list of hashes.  A soul without fragments has the
    hash of [b"empty-soul"] as its root, a soul with one fragment the hash
    of that fragment. *)
Theorem compute_root_returns (soul : soul_arg) :
  exists r,
    compute_root soul = Ok r /\
    (leaves_of soul = [] -> r = _hash (encode_utf8 "empty-soul")) /\
    (forall leaf, leaves_of soul = [leaf] -> r = _leaf_hash leaf).
Proof.
  destruct (compute_root_total soul) as [r Hr]. exists r.
  split; [exact Hr|]. unfold compute_root in Hr. split.
  - intros E. rewrite E in Hr. now injection Hr.
  - intros leaf E. rewrite E in Hr. now injection Hr.
Qed.

(** The walk of [_collect_siblings] records one sibling per level: from a
    level of [m > 1] hashes it returns [k] siblings with
    [2^(k-1) < m <= 2^k]. *)
Lemma collect_count (fuel : nat) :
  forall (level : list string) (index : Z) (acc r : list (string * string)),
    (length level <= fuel)%coq_nat ->
    0 <= index < len level ->
    _collect_siblings_loop fuel level index acc = Ok r ->
    exists sibs,
      r = acc ++ sibs /\
      (len level = 1 -> sibs = []) /\
      (1 < len level ->
       2 ^ (len sibs - 1) < len level <= 2 ^ len sibs).
Proof.
  induction fuel as [|fuel IH]; intros level index acc r Hfuel Hidx Hr.
  - destruct level; [unfold len in Hidx; cbn in Hidx; lia|].
    simpl in Hfuel; lia.
  - cbn [_collect_siblings_loop] in Hr.
    destruct (Z.gtb_spec (len level) 1) as [Hgt|Hle].
    + destruct (nth_error_in_range Hidx) as [h Hh].
      destruct (level_step Hgt (proj1 Hidx) Hh) as (s & Hin & Hget & Hnext).
      rewrite Hin Hget in Hr. cbn [bind] in Hr.
      set (side := if index mod 2 =? 0 then "right" else "left") in Hr.
      assert (Hl := len_pair_up (pad_even level)).
      assert (Hp := len_pad level).
      assert (Hnext' : 0 <= index / 2 < len (pair_up (pad level))).
      { rewrite Hl Hp. Z.div_mod_to_equations; lia. }
      destruct (IH (pair_up (pad level)) (index / 2) (acc ++ [(s, side)]) r)
        as (sibs & -> & Hone & Hmany); [|exact Hnext'|exact Hr|].
      { unfold len in *. Z.div_mod_to_equations; lia. }
      exists ((s, side) :: sibs). split; [now rewrite <- app_assoc|].
      split; [intros; lia|]. intros _.
      replace (len ((s, side) :: sibs)) with (len sibs + 1)
        by (unfold len; cbn [length]; lia).
      replace (len sibs + 1 - 1) with (len sibs) by lia.
      assert (H0 := @len_nonneg _ sibs).
      rewrite -> Z.pow_add_r by lia. change (2 ^ 1) with 2.
      destruct (Z.eq_dec (len (pair_up (pad level))) 1) as [E1|E1].
      * rewrite (Hone E1).
        change (len (@nil (string * string))) with 0.
        change (2 ^ 0) with 1. rewrite E1 in Hl.
        Z.div_mod_to_equations; lia.
      * assert (Hm : 1 < len (pair_up (pad level))) by lia.
        specialize (Hmany Hm).
        assert (Hk : 1 <= len sibs).
        { destruct (Z.eq_dec (len sibs) 0) as [E0|]; [|lia].
          rewrite E0 in Hmany. change (2 ^ 0) with 1 in Hmany. lia. }
        assert (Hpow : 2 ^ len sibs = 2 * 2 ^ (len sibs - 1)).
        { rewrite <- Z.pow_succ_r by lia. f_equal. lia. }
        rewrite -> Hpow in *.
        rewrite Hl Hp in Hmany. Z.div_mod_to_equations; lia.
    + exists []. injection Hr as <-. split; [now rewrite app_nil_r|].
      split; [reflexivity|lia].
Qed.

(** X5.  A Merkle proof is logarithmic in the number of fragments: for a
    soul with [n >= 2] fragments the proof of any fragment lists [k]
    siblings with [2^(k-1) < n <= 2^k]. *)
Theorem proof_size_logarithmic (soul : soul_arg) (i : Z) :
  1 < len (leaves_of soul) ->
  0 <= i < len (leaves_of soul) ->
  exists proof,
    prove_fragment soul i = Ok proof /\
    2 ^ (len (siblings proof) - 1) < len (leaves_of soul)
      <= 2 ^ len (siblings proof).
Proof.
  intros Hlen Hi.
  destruct (prove_fragment_path Hi) as (leaf & sibs & Hleaf & _ & Hp).
  eexists. split; [exact Hp|]. cbn [siblings].
  unfold prove_fragment in Hp.
  rewrite (getitem_nth (proj1 Hi) Hleaf) in Hp. cbn [bind] in Hp.
  set (hashes := map _leaf_hash (leaves_of soul)) in *.
  destruct (_collect_siblings (pad hashes) i) as [sibs'|e] eqn:Hc;
    [|discriminate Hp].
  cbn [bind] in Hp.
  destruct (_build_tree (pad hashes)) as [root|e]; [|discriminate Hp].
  cbn [bind] in Hp. injection Hp as Hs _. subst sibs'.
  assert (Hn : len hashes = len (leaves_of soul))
    by (subst hashes; apply len_map).
  assert (Hpad := len_pad hashes).
  destruct (@collect_count (length (pad hashes)) (pad hashes) i [] sibs)
    as (sibs' & E & _ & Hmany);
    [apply Nat.le_refl|Z.div_mod_to_equations; lia|exact Hc|].
  cbn [app] in E. subst sibs'.
  assert (Hm : 1 < len (pad hashes)) by (Z.div_mod_to_equations; lia).
  specialize (Hmany Hm). rewrite Hpad Hn in Hmany.
  assert (H0 := @len_nonneg _ sibs).
  split; [|Z.div_mod_to_equations; lia].
  destruct (Z.eq_dec (len (leaves_of soul) mod 2) 0) as [Ev|Od];
    [rewrite Ev in Hmany; lia|].
  assert (Hk : 2 <= len sibs).
  { destruct (Z.le_gt_cases 2 (len sibs)) as [|Hs]; [assumption|].
    assert (E : len sibs = 0 \/ len sibs = 1) by lia.
    destruct E as [E|E]; rewrite E in Hmany; cbn in Hmany;
      Z.div_mod_to_equations; lia. }
  assert (Hpow : 2 ^ (len sibs - 1) = 2 * 2 ^ (len sibs - 2)).
  { rewrite <- Z.pow_succ_r by lia. f_equal. lia. }
  rewrite -> Hpow in *.
  Z.div_mod_to_equations; lia.
Qed.

End WithExternals.

Import Sample.


Lemma proof_checks_against_committed_root_witness :
  exists proof leaf,
    prove_fragment (OfSoul sample_soul) 1 = Ok proof /\
    getitem (leaves_of (OfSoul sample_soul)) 1 = Ok leaf /\
    leaf_index proof = 1 /\
    leaf_hash proof = _leaf_hash leaf /\
    compute_root (OfSoul sample_soul) = Ok (root proof) /\
    verify_proof proof = true.
Proof.
  apply (@proof_checks_against_committed_root Sample.externals
           (OfSoul sample_soul) 1).
  - vm_compute. reflexivity.
  - vm_compute. split; [discriminate|reflexivity].
Defined.

Lemma compute_root_duplicated_last_witness :
  compute_root (OfLeaves ([JInt 1; JInt 2] ++ [JInt 3; JInt 3]))
  = compute_root (OfLeaves ([JInt 1; JInt 2] ++ [JInt 3])).
Proof.
  apply (@compute_root_duplicated_last Sample.externals
           [JInt 1; JInt 2] (JInt 3)).
  - discriminate.
  - reflexivity.
Defined.

Lemma proof_size_logarithmic_witness :
  exists proof,
    prove_fragment (OfSoul sample_soul) 0 = Ok proof /\
    2 ^ (len (siblings proof) - 1) < len (leaves_of (OfSoul sample_soul))
      <= 2 ^ len (siblings proof).
Proof.
  apply (@proof_size_logarithmic Sample.externals (OfSoul sample_soul) 0).
  - vm_compute. reflexivity.
  - vm_compute. split; [discriminate|reflexivity].
Defined.

End IntegrityLaws.

(** ** soul_encoder.py and soul_decoder.py: rejected payloads and the hex
    forms *)

Module CodecLaws.
Import PyFacts CodecFacts.

(** [bytes.hex()] and [bytes.fromhex(s)], with the law that the second
    reads what the first wrote. *)
Class HexCodec : Type := {
  bytes_hex : bytes -> string;
  bytes_fromhex : string -> result bytes;
  fromhex_hex : forall b, bytes_fromhex (bytes_hex b) = Ok b
}.

Section WithExternals.
Context {L : Externals}.

(** [SoulEncoder.encode_to_hex] *)
Definition encode_to_hex {H : HexCodec} (self : Encoder.SoulEncoder)
    (nonce : bytes) (soul : Soul) : result string :=
  payload <- Encoder.encode self nonce soul ;;
  Ok (bytes_hex payload).

(** [SoulDecoder.decode_hex] *)
Definition decode_hex {H : HexCodec} (self : Decoder.SoulDecoder)
    (now : nat -> spec_float) (hex_string : string) : result Soul :=
  data <- bytes_fromhex hex_string ;;
  Decoder.decode self now data.

(** X6.  [decode] rejects a payload with a malformed header with a
    [SoulDecodeError], whatever the key is: a payload of fewer than 22
    bytes, one that does not start with [ATMAN], one whose version byte is
    not 1. *)
Theorem decode_rejects_malformed_header (self : Decoder.SoulDecoder)
    (now : nat -> spec_float) (data : bytes) :
  len data < 22 \/
  slice data 0 5 <> Encoder.MAGIC \/
  (exists v, getitem (map int_of_byte data) 5 = Ok v /\ v <> 1) ->
  exists msg,
    Decoder.decode self now data = Raise (Exn SoulDecodeError msg).
Proof.
  intros H. unfold Decoder.decode.
  destruct (Z.ltb_spec (len data) 22) as [|Hlen]; [now eexists|].
  destruct (Decoder.bytes_eqb (slice data 0 5) Encoder.MAGIC) eqn:Em;
    cbn [negb]; [|now eexists].
  apply bytes_eqb_eq in Em.
  destruct H as [H|[H|(v & Hv & Hne)]]; [lia|contradiction|].
  rewrite Hv. cbn [bind].
  destruct (Z.eqb_spec v Encoder.FORMAT_VERSION) as [E|_];
    [contradiction|now eexists].
Qed.

(** X7.  The exceptions that leave [decode]: a [SoulDecodeError], or an
    exception that [zlib.decompress] raised and that is no [zlib.error],
    or one that [json.loads] raised and that is no [JSONDecodeError], or
    one raised while the [Soul] is rebuilt from the parsed object.  The
    last three are not wrapped. *)
Theorem decode_errors_classified (self : Decoder.SoulDecoder)
    (now : nat -> spec_float) (data : bytes) (e : exn) :
  Decoder.decode self now data = Raise e ->
  exn_cls e = SoulDecodeError \/
  (exists compressed,
     zlib_decompress compressed = Raise e /\ is_class ZlibError e = false) \/
  (exists raw,
     json_loads raw = Raise e /\ is_class JSONDecodeError e = false) \/
  (exists raw obj,
     json_loads raw = Ok obj /\ Decoder._reconstruct now obj = Raise e).
Proof.
  unfold Decoder.decode.
  destruct (Z.ltb_spec (len data) 22) as [|Hlen];
    [intros [= <-]; now left|].
  destruct (Decoder.bytes_eqb (slice data 0 5) Encoder.MAGIC);
    cbn [negb]; [|intros [= <-]; now left].
  assert (Hv : exists v, getitem (map int_of_byte data) 5 = Ok v).
  { destruct (@nth_error_in_range _ (map int_of_byte data) 5) as [v Hv];
      [rewrite len_map; lia|].
    exists v. apply getitem_nth; [lia|exact Hv]. }
  destruct Hv as [v ->]. cbn [bind].
  destruct (negb (v =? Encoder.FORMAT_VERSION)); [intros [= <-]; now left|].
  destruct (aesgcm_decrypt _ _ _ _) as [compressed|e1];
    cbn [try_except_Exception bind]; [|intros [= <-]; now left].
  destruct (zlib_decompress compressed) as [raw|e2] eqn:Ez;
    cbn [try_except bind].
  2:{ destruct (is_class ZlibError e2) eqn:Ec; cbn [bind].
      - intros [= <-]; now left.
      - intros [= <-]. right. left. now exists compressed. }
  destruct (negb (len raw =? _)); [intros [= <-]; now left|].
  destruct (json_loads raw) as [obj|e3] eqn:Ej; cbn [try_except bind].
  2:{ destruct (is_class JSONDecodeError e3) eqn:Ec; cbn [bind].
      - intros [= <-]; now left.
      - intros [= <-]. right. right. left. now exists raw. }
  intros He. right. right. right. now exists raw, obj.
Qed.

(** X8.  The size field is checked: a payload that decrypts and
    decompresses to [raw] but whose size field holds another number than
    [len(raw)] is rejected with a [SoulDecodeError] that names both. *)
Theorem decode_checks_size_field (self : Decoder.SoulDecoder)
    (now : nat -> spec_float) (nonce size_bytes raw : bytes) :
  len nonce = 12 -> len size_bytes = 4 ->
  from_bytes_big size_bytes <> len raw ->
  Decoder.decode self now
    ((Encoder.MAGIC ++ [x01]) ++ nonce ++ size_bytes ++
     aesgcm_encrypt (Decoder._key self) nonce (zlib_compress raw)
       Encoder.MAGIC)
  = Raise (Exn SoulDecodeError
             ("Size mismatch: expected "
              ++ Decoder.str_int (from_bytes_big size_bytes)
              ++ ", got " ++ Decoder.str_int (len raw))%string).
Proof.
  intros Hn Hs Hne.
  rewrite -> decode_header by (unfold len in *; lia).
  unfold decode_body.
  rewrite aesgcm_inverse. cbn [try_except_Exception bind].
  rewrite zlib_inverse. cbn [try_except bind].
  destruct (Z.eqb_spec (len raw) (from_bytes_big size_bytes)) as [E|_];
    [now rewrite E in Hne|reflexivity].
Qed.

(** X9.  [_reconstruct] inverts [dataclasses.asdict]: from the dict of a
    soul it rebuilds that soul, every field and every fragment, without
    reading the clock for a default timestamp. *)
Theorem reconstruct_inverts_asdict (now now' : nat -> spec_float)
    (soul : Soul) :
  Decoder._reconstruct now (asdict soul) = Ok soul /\
  Decoder._reconstruct now' (asdict soul)
  = Decoder._reconstruct now (asdict soul).
Proof.
  assert (H : forall clock, Decoder._reconstruct clock (asdict soul) = Ok soul).
  { intros clock. unfold Decoder._reconstruct, asdict.
    cbn [Decoder.pop_fragments lookup bind]. cbn.
    rewrite build_fragments_asdict. now destruct soul. }
  split; [apply H|]. now rewrite !H.
Qed.

(** X10.  The hex forms compose to the identity as the byte forms do: for a
    12-byte nonce and a record that the JSON library serializes faithfully
    into fewer than [2^32] bytes, [decode_hex] of [encode_to_hex] is the
    record. *)
Theorem hex_round_trip {H : HexCodec} (K nonce : bytes) (R : Soul)
    (now : nat -> spec_float) :
  len nonce = 12 ->
  json_faithful (asdict R) ->
  len (json_dumps (asdict R)) < 2 ^ 32 ->
  exists hex_string,
    encode_to_hex {| Encoder._key := K |} nonce R = Ok hex_string /\
    decode_hex {| Decoder._key := K |} now hex_string = Ok R.
Proof.
  intros Hn Hjson Hsize.
  destruct (decode_encode K now Hn Hjson Hsize) as (payload & Henc & Hdec).
  exists (bytes_hex payload). unfold encode_to_hex, decode_hex.
  rewrite Henc. cbn [bind]. rewrite fromhex_hex. cbn [bind].
  split; [reflexivity|exact Hdec].
Qed.

End WithExternals.

(** A hex codec for the examples: two lower-case digits per byte. *)
Definition hex_value (c : ascii) : option Z :=
  let n := Z.of_nat (nat_of_ascii c) in
  if (48 <=? n) && (n <=? 57) then Some (n - 48)
  else if (97 <=? n) && (n <=? 102) then Some (n - 87)
  else None.

Definition hex_pair (b : byte) : string :=
  String (Decoder.hex_digit (int_of_byte b / 16))
    (String (Decoder.hex_digit (int_of_byte b mod 16)) "").

Fixpoint to_hex (bs : bytes) : string :=
  match bs with
  | [] => ""
  | b :: bs' => hex_pair b ++ to_hex bs'
  end.

Fixpoint of_hex (s : string) : result bytes :=
  match s with
  | EmptyString => Ok []
  | String a (String b rest) =>
      match hex_value a, hex_value b with
      | Some x, Some y =>
          bs <- of_hex rest ;; Ok (byte_of_int (16 * x + y) :: bs)
      | _, _ =>
          Raise (Exn ValueError
                   "non-hexadecimal number found in fromhex() arg")
      end
  | String _ EmptyString =>
      Raise (Exn ValueError "non-hexadecimal number found in fromhex() arg")
  end.

Lemma of_hex_to_hex (bs : bytes) : of_hex (to_hex bs) = Ok bs.
Proof.
  induction bs as [|b bs IH]; [reflexivity|].
  cbn [to_hex]. unfold hex_pair. cbn [String.append of_hex].
  replace (hex_value (Decoder.hex_digit (int_of_byte b / 16)))
    with (Some (int_of_byte b / 16)) by (destruct b; reflexivity).
  replace (hex_value (Decoder.hex_digit (int_of_byte b mod 16)))
    with (Some (int_of_byte b mod 16)) by (destruct b; reflexivity).
  rewrite IH. cbn [bind]. do 2 f_equal.
  rewrite <- (byte_of_int_of_byte b) at 3. f_equal.
  symmetry. apply Z.div_mod. lia.
Qed.

#[export] Instance sample_hex : HexCodec :=
  {| bytes_hex := to_hex; bytes_fromhex := of_hex;
     fromhex_hex := of_hex_to_hex |}.

Import Sample.

(** A 22-byte payload that starts with [ATMAx]. *)
Definition bad_magic : bytes :=
  encode_utf8 "ATMAx" ++ [x01] ++ sample_nonce ++ [x00; x00; x00; x00].

Lemma decode_rejects_malformed_header_witness :
  exists msg,
    Decoder.decode {| Decoder._key := sample_key |} sample_clock bad_magic
    = Raise (Exn SoulDecodeError msg).
Proof.
  apply (@decode_rejects_malformed_header Sample.externals).
  right. left. vm_compute. discriminate.
Defined.

(** A payload whose plaintext is not JSON for the sample library. *)
Definition not_json : bytes := pack sample_key sample_nonce [xff].

Definition parse_failure : exn :=
  Exn SoulDecodeError "JSON parse failed: Expecting value".

Lemma decode_errors_classified_witness :
  exn_cls parse_failure = SoulDecodeError \/
  (exists compressed,
     zlib_decompress compressed = Raise parse_failure /\
     is_class ZlibError parse_failure = false) \/
  (exists raw,
     json_loads raw = Raise parse_failure /\
     is_class JSONDecodeError parse_failure = false) \/
  (exists raw obj,
     json_loads raw = Ok obj /\
     Decoder._reconstruct sample_clock obj = Raise parse_failure).
Proof.
  apply (@decode_errors_classified Sample.externals
           {| Decoder._key := sample_key |} sample_clock not_json).
  vm_compute. reflexivity.
Defined.

Lemma decode_checks_size_field_witness :
  Decoder.decode {| Decoder._key := sample_key |} sample_clock
    ((Encoder.MAGIC ++ [x01]) ++ sample_nonce ++ [x00; x00; x00; x07] ++
     aesgcm_encrypt sample_key sample_nonce
       (zlib_compress (json_dumps (asdict sample_soul))) Encoder.MAGIC)
  = Raise (Exn SoulDecodeError
             ("Size mismatch: expected "
              ++ Decoder.str_int (from_bytes_big [x00; x00; x00; x07])
              ++ ", got "
              ++ Decoder.str_int
                   (len (json_dumps (asdict sample_soul))))%string).
Proof.
  apply (@decode_checks_size_field Sample.externals
           {| Decoder._key := sample_key |} sample_clock sample_nonce
           [x00; x00; x00; x07] (json_dumps (asdict sample_soul)));
    vm_compute; (reflexivity || discriminate).
Defined.

Lemma hex_round_trip_witness :
  exists hex_string,
    encode_to_hex {| Encoder._key := sample_key |} sample_nonce sample_soul
      = Ok hex_string /\
    decode_hex {| Decoder._key := sample_key |} sample_clock hex_string
      = Ok sample_soul.
Proof.
  apply (@hex_round_trip Sample.externals sample_hex sample_key sample_nonce
           sample_soul sample_clock); vm_compute; reflexivity.
Defined.

End CodecLaws.

(** ** shamir_keys.py: the shares and the interpolation *)

Module ShamirLaws.
Import PyFacts Shamir ShamirFacts.

Section InField.
Import GRing.Theory Field257 Interpolation.

Lemma uniq_toF_mod (xs : list Z) :
  NoDup (map (fun a => a mod 257) xs) -> uniq (map toF xs).
Proof.
  elim: xs => [|x xs IH] // Hnd.
  have [Hx Hxs] := proj1 (NoDup_cons_iff _ _) Hnd.
  rewrite /= (IH Hxs) andbT.
  apply/negP => /mem_In /in_map_iff [y [Hy Hin]].
  apply: Hx. apply/in_map_iff. exists y. split; [|exact Hin].
  move: Hy. rewrite -(toF_mod x) -(toF_mod y).
  by apply: toF_small_inj; apply: Z.mod_pos_bound.
Qed.

(** X11.  [_lagrange_interpolate] recovers a polynomial from its values:
    for integer coefficients [coeffs], at most as many as there are nodes,
    and nodes [xs] that are distinct modulo 257, the interpolation of the
    values [_eval_poly(coeffs, a) % 257] at any [x] is
    [_eval_poly(coeffs, x) % 257]. *)
Theorem lagrange_interpolates_polynomial (coeffs xs : list Z) (x : Z) :
  len coeffs <= len xs ->
  NoDup (map (fun a => a mod 257) xs) ->
  _lagrange_interpolate default_manager x xs
    (map (fun a => _eval_poly coeffs a mod 257) xs)
  = Ok (_eval_poly coeffs x mod 257).
Proof.
  intros Hlen Hnd. change default_manager with {| _prime := 257 |}.
  rewrite -> lagrange_interpolate_ok by (unfold len; now rewrite length_map).
  f_equal. apply toF_small_inj;
    [apply lagrange_range|apply Z.mod_pos_bound; lia|].
  rewrite toF_mod toF_eval_poly.
  apply (@toF_lagrange x xs _ (Poly (map toF coeffs))).
  - now apply uniq_toF_mod.
  - apply (leq_trans (size_Poly _)). rewrite !size_length !List.length_map.
    apply/leP. unfold len in Hlen. lia.
  - intros i Hi. rewrite size_length List.length_map in Hi.
    move/ltP: Hi => Hi.
    rewrite (@nth_map_lt _ (fun a => _eval_poly coeffs a mod 257) xs i 0%Z Hi).
    now rewrite toF_mod toF_eval_poly.
Qed.

End InField.

(** X12.  For as many values as nodes, [_lagrange_interpolate] never
    raises and returns a number in [[0, 257)], also when two nodes agree
    modulo 257: the denominator is then 0 and [pow(0, 255, 257)] is 0, no
    division fails. *)
Theorem lagrange_interpolate_in_range (x : Z) (xs ys : list Z) :
  len ys = len xs ->
  exists r,
    _lagrange_interpolate default_manager x xs ys = Ok r /\ 0 <= r < 257.
Proof.
  intros Hlen. exists (lagrange 257 x xs ys). split.
  - change default_manager with {| _prime := 257 |}.
    now apply lagrange_interpolate_ok.
  - apply lagrange_range.
Qed.

Lemma eval_fold_zero (l : list Z) :
  forall (s : nat) (acc : Z),
    (0 < s)%coq_nat ->
    fold_left (fun result '(i, c) => result + c * 0 ^ i)
      (List.combine (map Z.of_nat (seq s (length l))) l) acc = acc.
Proof.
  induction l as [|c l IH]; intros s acc Hs; [reflexivity|].
  cbn [length seq map List.combine fold_left].
  rewrite -> IH by lia.
  rewrite -> Z.pow_0_l by lia. lia.
Qed.

(** X13.  The constant coefficient is the value at 0: [_eval_poly] of
    [[c] + rest] at 0 is [c], since [pow(0, 0)] is 1.  This is why a share
    set interpolated at 0 gives the key byte. *)
Theorem eval_poly_at_zero (c : Z) (rest : list Z) :
  _eval_poly (c :: rest) 0 = c.
Proof.
  unfold _eval_poly, enumerate, range, len. rewrite Nat2Z.id.
  cbn [length seq map List.combine fold_left].
  rewrite -> eval_fold_zero by lia.
  change (0 ^ Z.of_nat 0) with 1. lia.
Qed.

Section WithExternals.
Context {L : Externals}.

Lemma length_concat_pairs (chunks : list bytes) :
  (forall c, In c chunks -> length c = 2%nat) ->
  length (concat chunks) = Nat.mul 2 (length chunks).
Proof.
  induction chunks as [|c chunks IH]; intros H; [reflexivity|].
  cbn [concat length]. rewrite length_app.
  rewrite -> (H c) by now left.
  rewrite -> IH by (intros c' Hc'; apply H; now right). lia.
Qed.

(** X14.  The shares [split] returns: share number [i] (from 0) carries
    the index [i + 1], the first 16 hex digits of the key's SHA-256 as
    fingerprint, and two bytes for each of the 32 bytes of the key, each
    pair a big-endian number below 257. *)
Theorem split_shares_shape (K : bytes) (T N i : Z) :
  len K = 32 -> 2 <= T -> T <= N -> 0 <= i < N ->
  exists shares s,
    split default_manager K T N = Ok (K, shares) /\
    getitem shares i = Ok s /\
    index s = i + 1 /\
    fingerprint s = substring 0 16 (sha256_hexdigest K) /\
    len (data s) = 64 /\
    forall k, 0 <= k < 32 ->
      0 <= from_bytes_big (slice (data s) (k * 2) (k * 2 + 2)) < 257.
Proof.
  intros HK HT HTN Hi.
  exists (shares_of K T N), (share_of K T i). split; [|split].
  - apply split_ok; [exact HK|lia].
  - apply getitem_nth; [lia|].
    rewrite -> (@nth_error_shares_of _ K T N (Z.to_nat i)) by lia.
    rewrite -> Z2Nat.id by lia. reflexivity.
  - split; [reflexivity|]. split; [reflexivity|]. split.
    + cbn [data share_of]. unfold len.
      rewrite -> length_concat_pairs.
      * rewrite List.length_map. unfold enumerate.
        rewrite length_combine. unfold range.
        rewrite List.length_map List.length_seq.
        unfold len in *. lia.
      * intros c Hc. apply in_map_iff in Hc.
        destruct Hc as ([idx b] & <- & _). apply length_to_bytes_digits.
    + intros k Hk.
      destruct (@nth_error_in_range _ K k) as [b Hb]; [lia|].
      replace k with (Z.of_nat (Z.to_nat k)) by lia.
      rewrite (share_read T i Hb). apply share_value_range.
Qed.

(** X15.  Two shares whose indices agree modulo 257, among them a share
    given twice, never reconstruct a key other than zero bytes: [combine]
    either raises a [ValueError] or returns [key_length] zero bytes. *)
Theorem combine_colliding_pair (s s' : KeyShare) (key_length : Z) :
  (index s - index s') mod 257 = 0 ->
  combine default_manager [s; s'] key_length
    = Ok (map (fun _ => x00) (range key_length)) \/
  exists msg,
    combine default_manager [s; s'] key_length = Raise (Exn ValueError msg).
Proof.
  intros Hx.
  destruct (string_dec (fingerprint s) (fingerprint s')) as [Hfp|Hfp].
  - rewrite -> (@combine_checked _ [s; s'] key_length s);
      [|unfold len; cbn [length]; lia
       |intros a b [<-|[<-|[]]] [<-|[<-|[]]]; congruence
       |reflexivity].
    rewrite (assembled_colliding key_length Hx).
    destruct (String.eqb _ _); [now left|right; now eexists].
  - right. eexists. unfold combine.
    destruct (Z.ltb_spec (len [s; s']) 2) as [Hlt|_];
      [unfold len in Hlt; cbn [length] in Hlt; lia|].
    assert (H2 := @nodup_two (fingerprint s) (fingerprint s')
                    (map fingerprint [s; s'])
                    (or_introl erefl) (or_intror (or_introl erefl)) Hfp).
    destruct (Z.gtb_spec (len (nodup string_dec (map fingerprint [s; s']))) 1)
      as [|Hle]; [reflexivity|].
    unfold len in Hle. lia.
Qed.

Lemma seed_at_shift (seed : bytes) (k m : Z) :
  length seed = 64%nat -> seed_at seed (k + m * 64) = seed_at seed k.
Proof.
  intros H. unfold seed_at, len. rewrite H.
  change (Z.of_nat 64) with 64. now rewrite Z_mod_plus_full.
Qed.

(** X16.  The coefficients are read from a 64-byte digest at an offset
    taken modulo 64, so they repeat: two key bytes whose positions differ
    by [d] with [d * (threshold - 1)] a multiple of 32 get the same
    non-constant coefficients.  With threshold 3 this holds for the bytes
    16 apart, with threshold 33 for all bytes. *)
Theorem coefficients_repeat (key : bytes) (threshold b b' v v' : Z) :
  ((b - b') * (threshold - 1)) mod 32 = 0 ->
  tl (coeffs_of default_manager (seed_of key) threshold b v)
  = tl (coeffs_of default_manager (seed_of key) threshold b' v').
Proof.
  intros H. unfold coeffs_of. cbn [tl]. apply map_ext. intros c. cbv zeta.
  apply Z.mod_divide in H; [|lia]. destruct H as [m Hm].
  assert (Hlen : length (seed_of key) = 64%nat) by apply sha512_length.
  replace ((b * (threshold - 1) + c) * 2)
    with ((b' * (threshold - 1) + c) * 2 + m * 64) by lia.
  replace ((b' * (threshold - 1) + c) * 2 + m * 64 + 1)
    with ((b' * (threshold - 1) + c) * 2 + 1 + m * 64) by lia.
  now rewrite !(seed_at_shift _ _ Hlen).
Qed.

End WithExternals.

Import Sample.

Lemma lagrange_interpolates_polynomial_witness :
  _lagrange_interpolate default_manager 0 [5; 2; 9]
    (map (fun a => _eval_poly [200; 17; 101] a mod 257) [5; 2; 9])
  = Ok (_eval_poly [200; 17; 101] 0 mod 257).
Proof.
  apply (@lagrange_interpolates_polynomial [200; 17; 101] [5; 2; 9] 0).
  - vm_compute. discriminate.
  - vm_compute. repeat constructor; simpl; intuition discriminate.
Defined.

Lemma lagrange_interpolate_in_range_witness :
  exists r,
    _lagrange_interpolate default_manager 0 [1; 258] [7; 9] = Ok r /\
    0 <= r < 257.
Proof.
  apply (@lagrange_interpolate_in_range 0 [1; 258] [7; 9]). reflexivity.
Defined.

Lemma split_shares_shape_witness :
  exists shares s,
    split default_manager sample_key 3 5 = Ok (sample_key, shares) /\
    getitem shares 4 = Ok s /\
    index s = 4 + 1 /\
    fingerprint s = substring 0 16 (sha256_hexdigest sample_key) /\
    len (data s) = 64 /\
    forall k, 0 <= k < 32 ->
      0 <= from_bytes_big (slice (data s) (k * 2) (k * 2 + 2)) < 257.
Proof.
  apply (@split_shares_shape Sample.externals sample_key 3 5 4);
    [vm_compute; reflexivity|lia|lia|lia].
Defined.

Lemma combine_colliding_pair_witness :
  combine default_manager
    [{| index := 1; data := [x00; x07]; fingerprint := "ab" |};
     {| index := 258; data := [x00; x09]; fingerprint := "ab" |}] 1
    = Ok (map (fun _ => x00) (range 1)) \/
  exists msg,
    combine default_manager
      [{| index := 1; data := [x00; x07]; fingerprint := "ab" |};
       {| index := 258; data := [x00; x09]; fingerprint := "ab" |}] 1
    = Raise (Exn ValueError msg).
Proof.
  apply (@combine_colliding_pair Sample.externals). reflexivity.
Defined.

Lemma coefficients_repeat_witness :
  tl (coeffs_of default_manager (seed_of sample_key) 3 16 40)
  = tl (coeffs_of default_manager (seed_of sample_key) 3 0 1).
Proof.
  apply (@coefficients_repeat Sample.externals sample_key 3 16 0 40 1).
  reflexivity.
Defined.

End ShamirLaws.

(** ** arweave_store.py and resurrection.py: the local store and the
    protocol built from shares *)

Module ProtocolLaws.
Import PyFacts Resurrection ResurrectionFacts.

Section WithExternals.
Context {L : Externals}.

Lemma local_get_set_other (k k' : string) (v : bytes)
    (d : Store.local_state) :
  k' <> k -> Store.local_get k' (Store.local_set k v d) = Store.local_get k' d.
Proof.
  intros Hne. induction d as [|[k0 v0] d IH]; cbn [Store.local_set].
  - cbn [Store.local_get].
    now destruct (String.eqb_spec k' k).
  - destruct (String.eqb_spec k k0) as [->|Hk]; cbn [Store.local_get].
    + now destruct (String.eqb_spec k' k0).
    + rewrite IH. reflexivity.
Qed.

(** X17.  [LocalArweaveStore]: an upload never fails, a download under the
    receipt's transaction id returns the uploaded bytes, the receipt
    reports their length, and every other transaction id reads as
    before. *)
Theorem local_upload_then_download (st : Store.local_state) (data : bytes)
    (tags : list (string * json)) (now : spec_float) :
  exists st' receipt,
    Store.local_upload st data tags now = Ok (st', receipt) /\
    Store.local_download st' (Store.tx_id receipt) = Ok data /\
    Store.size_bytes receipt = len data /\
    forall tx, tx <> Store.tx_id receipt ->
               Store.local_download st' tx = Store.local_download st tx.
Proof.
  eexists. eexists. split; [reflexivity|]. cbn [Store.tx_id Store.size_bytes].
  split; [|split; [reflexivity|]].
  - unfold Store.local_download. now rewrite local_get_set.
  - intros tx Hne. unfold Store.local_download.
    now rewrite (local_get_set_other _ _ Hne).
Qed.

(** X18.  [resurrect] on a transaction id that the local store does not
    hold returns a failure, with no soul and a non-empty error text: the
    [KeyError] of the store is contained. *)
Theorem resurrect_missing_transaction (self : ResurrectionProtocol)
    (st : Store.local_state) (tx : string) (start finish : spec_float)
    (now : nat -> spec_float) :
  Store.local_get tx st = None ->
  exists r,
    resurrect Store.LocalArweaveStore self st tx start finish now = Ok r /\
    success r = false /\ soul r = None /\ source_tx r = tx /\
    integrity_verified r = false /\ error r <> ""%string.
Proof.
  intros Hmiss. rewrite resurrect_cases.
  cbn [Store.download Store.LocalArweaveStore].
  unfold Store.local_download. rewrite Hmiss.
  eexists. split; [reflexivity|]. cbn. repeat split. discriminate.
Qed.

Lemma integrity_phase_dict (self : ResurrectionProtocol) (s : Soul)
    (d : list (string * json)) :
  SoulModel.metadata s = JDict d ->
  exists b, integrity_phase self s = Ok b.
Proof.
  intros Hm. unfold integrity_phase. destruct (_verify self); [|now eexists].
  rewrite Hm. cbn [metadata_get metadata_getitem bind].
  destruct (lookup "merkle_root" d) as [v|]; [|now eexists].
  destruct (truthy v); [|now eexists].
  destruct (IntegrityFacts.compute_root_total (Integrity.OfSoul s))
    as [r ->].
  cbn [bind]. now eexists.
Qed.

(** X19.  A soul whose metadata is not a dict decodes, but with
    [verify_integrity] on, [resurrect] fails on it: [metadata.get] raises
    an [AttributeError], and the result carries its text and no soul. *)
Theorem resurrect_nondict_metadata {S : Type} (store : Store.ArweaveStore S)
    (self : ResurrectionProtocol) (st : S) (tx : string) (data : bytes)
    (s : Soul) (start finish : spec_float) (now : nat -> spec_float) :
  Store.download store st tx = Ok data ->
  Decoder.decode (_decoder self) now data = Ok s ->
  _verify self = true ->
  (forall d, SoulModel.metadata s <> JDict d) ->
  exists r,
    resurrect store self st tx start finish now = Ok r /\
    success r = false /\ soul r = None /\
    error r = ("'" ++ Decoder.type_name (SoulModel.metadata s)
               ++ "' object has no attribute 'get'")%string.
Proof.
  intros Hd Hs Hv Hm. rewrite resurrect_cases Hd Hs.
  unfold integrity_phase. rewrite Hv.
  destruct (SoulModel.metadata s) as [| | | | | |d] eqn:E;
    try (eexists; split; [reflexivity|]; now repeat split).
  now destruct (Hm d).
Qed.

(** X20.  [full_ceremony] does not contain errors as [resurrect] does: on
    a soul whose metadata is not a dict, the assignment of the Merkle root
    raises a [TypeError] that leaves [full_ceremony], before anything is
    encoded or uploaded. *)
Theorem full_ceremony_nondict_metadata {S : Type}
    (store : Store.ArweaveStore S) (self : ResurrectionProtocol) (st : S)
    (s : Soul) (tags : option (list (string * json))) (nonce : bytes)
    (upload_time start finish : spec_float) (now : nat -> spec_float) :
  len (_key self) = 32 ->
  (forall d, SoulModel.metadata s <> JDict d) ->
  exists msg,
    full_ceremony store self st s tags nonce upload_time start finish now
    = Raise (Exn TypeError msg).
Proof.
  intros HK Hm. unfold full_ceremony.
  rewrite (CodecFacts.encoder_init_ok HK). cbn [bind].
  destruct (IntegrityFacts.compute_root_total (Integrity.OfSoul s))
    as [r ->].
  cbn [bind].
  destruct (SoulModel.metadata s) as [| | | | | |d] eqn:E;
    try (now eexists).
  now destruct (Hm d).
Qed.

(** X21.  The key can come from shares alone.  For a 32-byte key K split
    with 2 <= T <= N <= 257, a protocol built from any T or more distinct
    shares holds K, and it resurrects what an encoder with K stored: for a
    record with a dict as metadata that the JSON library serializes
    faithfully, [resurrect] on the stored payload succeeds with that
    record. *)
Theorem resurrect_with_shares (K nonce : bytes) (T N : Z) (R : Soul)
    (d : list (string * json)) (verify : bool) (st : Store.local_state)
    (tx : string) (start finish : spec_float) (now : nat -> spec_float) :
  len K = 32 -> 2 <= T -> T <= N -> N <= 257 ->
  len nonce = 12 ->
  CodecFacts.json_faithful (asdict R) ->
  len (json_dumps (asdict R)) < 2 ^ 32 ->
  SoulModel.metadata R = JDict d ->
  exists shares payload,
    Shamir.split Shamir.default_manager K T N = Ok (K, shares) /\
    Encoder.encode {| Encoder._key := K |} nonce R = Ok payload /\
    forall S,
      NoDup S -> incl S shares -> T <= len S ->
      Store.local_get tx st = Some payload ->
      exists self r,
        init None (Some S) verify = Ok self /\
        _key self = K /\
        resurrect Store.LocalArweaveStore self st tx start finish now
          = Ok r /\
        success r = true /\ soul r = Some R.
Proof.
  intros HK HT HTN HN Hn Hjson Hsize Hm.
  destruct (CodecFacts.decode_encode K now Hn Hjson Hsize)
    as (payload & Henc & Hdec).
  exists (ShamirFacts.shares_of K T N), payload.
  split; [apply ShamirFacts.split_ok; [exact HK|lia]|].
  split; [exact Henc|].
  intros S Hnd Hincl Hlen Hget.
  set (self := {| _key := K; _verify := verify;
                  _decoder := {| Decoder._key := K |} |}).
  assert (Hinit : init None (Some S) verify = Ok self).
  { unfold init. destruct S as [|s0 S'];
      [unfold len in Hlen; cbn [length] in Hlen; lia|].
    rewrite (@ShamirFacts.combine_subset _ K T N (s0 :: S')
               HK HT HN Hnd Hincl Hlen).
    cbn [bind]. now rewrite (CodecFacts.decoder_init_ok HK). }
  destruct (@integrity_phase_dict self R d Hm) as [b Hb].
  exists self, (revived tx start finish R b).
  split; [exact Hinit|]. split; [reflexivity|].
  split; [|now split].
  rewrite resurrect_cases. cbn [Store.download Store.LocalArweaveStore].
  unfold Store.local_download. rewrite Hget.
  cbn [_decoder self]. rewrite Hdec Hb. reflexivity.
Qed.

End WithExternals.

Import Sample.

Lemma resurrect_missing_transaction_witness :
  exists r,
    resurrect Store.LocalArweaveStore (protocol true) (store_of sample_soul)
      "gone" t0 t1 sample_clock = Ok r /\
    success r = false /\ soul r = None /\ source_tx r = "gone" /\
    integrity_verified r = false /\ error r <> ""%string.
Proof.
  apply (@resurrect_missing_transaction Sample.externals (protocol true)
           (store_of sample_soul) "gone" t0 t1 sample_clock).
  reflexivity.
Defined.

(** The sample soul with a list where the metadata dict should be. *)
Definition listed_soul : Soul := with_metadata sample_soul (JList []).

Lemma resurrect_nondict_metadata_witness :
  exists r,
    resurrect Store.LocalArweaveStore (protocol true) (store_of listed_soul)
      "tx" t0 t1 sample_clock = Ok r /\
    success r = false /\ soul r = None /\
    error r = ("'" ++ Decoder.type_name (SoulModel.metadata listed_soul)
               ++ "' object has no attribute 'get'")%string.
Proof.
  apply (@resurrect_nondict_metadata Sample.externals _
           Store.LocalArweaveStore (protocol true) (store_of listed_soul)
           "tx" (payload_of listed_soul) listed_soul t0 t1 sample_clock).
  - vm_compute. reflexivity.
  - vm_compute. reflexivity.
  - reflexivity.
  - intros d. discriminate.
Defined.

Lemma full_ceremony_nondict_metadata_witness :
  exists msg,
    full_ceremony Store.LocalArweaveStore (protocol true) [] listed_soul
      None sample_nonce t0 t0 t1 sample_clock
    = Raise (Exn TypeError msg).
Proof.
  apply (@full_ceremony_nondict_metadata Sample.externals _
           Store.LocalArweaveStore (protocol true) [] listed_soul None
           sample_nonce t0 t0 t1 sample_clock).
  - vm_compute. reflexivity.
  - intros d. discriminate.
Defined.

Lemma resurrect_with_shares_witness :
  exists shares payload,
    Shamir.split Shamir.default_manager sample_key 2 3
      = Ok (sample_key, shares) /\
    Encoder.encode {| Encoder._key := sample_key |} sample_nonce sample_soul
      = Ok payload /\
    forall S,
      NoDup S -> incl S shares -> 2 <= len S ->
      Store.local_get "tx" (store_of sample_soul) = Some payload ->
      exists self r,
        init None (Some S) false = Ok self /\
        _key self = sample_key /\
        resurrect Store.LocalArweaveStore self (store_of sample_soul) "tx"
          t0 t1 sample_clock = Ok r /\
        success r = true /\ soul r = Some sample_soul.
Proof.
  apply (@resurrect_with_shares Sample.externals sample_key sample_nonce 2 3
           sample_soul [("note", JList [JInt 1; JBool true; JNull])] false
           (store_of sample_soul) "tx" t0 t1 sample_clock);
    try lia; vm_compute; reflexivity.
Defined.

End ProtocolLaws.
